(** * SwagX: the Swagger/OpenAPI parser and the command-line driver

    A shallow embedding of [src/parser/swaggerParser.js] and of the
    command-line driver ([swagX parse | test | scan]), with the properties
    the specification states about them.

    JavaScript values are modelled by the inductive type [value]; code that
    can throw returns a [result]; the file system and the libraries the
    parser calls (swagger-parser, js-yaml, JSON) are the fields of an
    explicit [world], the security tester and the reporter those of the
    driver's [collaborators]. *)

From Stdlib Require Import String Ascii List ZArith Bool Lia.
From Stdlib Require Import DecimalString.
From Stdlib Require DecimalNat.
Import ListNotations.
Local Open Scope string_scope.
Local Open Scope list_scope.

(** ** JavaScript values, exceptions and the primitives the sources use *)

Module JS.

#[local] Set Warnings "-register-all".

(** A string is a sequence of code units; a character of [string] stands
    for one code unit (the Latin-1 range is representable).  Numbers of a
    parsed document are modelled by integers; the parser only tests them
    for truthiness and prints them.  An object is the list of its own
    enumerable properties in enumeration order, which is what
    [Object.entries] returns; its prototype is [Object.prototype]. *)
Inductive value : Type :=
| VUndefined
| VNull
| VBool (b : bool)
| VNum (n : Z)
| VStr (s : string)
| VArr (items : list value)
| VObj (fields : list (string * value)).

(** What a [throw] carries.  The two [new Error(...)] wrappers of the parser
    and the unsupported-format error keep their cause or argument instead of
    the formatted message text. *)
Inductive exn : Type :=
| TypeError (what : string)
| Rejected (why : string)
| ParseFailed (cause : exn)
| SaveFailed (cause : exn)
| UnsupportedFormat (format : string).

Inductive result (A : Type) : Type :=
| Ok (a : A)
| Throw (e : exn).
Arguments Ok {A} a.
Arguments Throw {A} e.

Definition bind {A B} (c : result A) (k : A -> result B) : result B :=
  match c with
  | Ok a => k a
  | Throw e => Throw e
  end.

Declare Scope js_scope.
Delimit Scope js_scope with js.
Notation "x <- c ;; k" := (bind c (fun x => k))
  (at level 61, c at next level, right associativity) : js_scope.
Local Open Scope js_scope.

(** [try { c } catch (error) { throw h(error) }] *)
Definition rethrow {A} (c : result A) (h : exn -> exn) : result A :=
  match c with
  | Ok a => Ok a
  | Throw e => Throw (h e)
  end.

Fixpoint mapM {A B} (f : A -> result B) (l : list A) : result (list B) :=
  match l with
  | [] => Ok []
  | x :: r => y <- f x ;; ys <- mapM f r ;; Ok (y :: ys)
  end.

(** A [for ... of] loop over [l] that updates a loop state and may throw. *)
Fixpoint foldM {A S} (body : S -> A -> result S) (l : list A) (s : S)
  : result S :=
  match l with
  | [] => Ok s
  | x :: r => s' <- body s x ;; foldM body r s'
  end.

(** ToBoolean *)
Definition truthy (v : value) : bool :=
  match v with
  | VUndefined | VNull => false
  | VBool b => b
  | VNum n => negb (n =? 0)%Z
  | VStr s => negb (s =? "")
  | VArr _ | VObj _ => true
  end.

(** [a || b] *)
Definition or_else (a b : value) : value := if truthy a then a else b.

Fixpoint lookup (k : string) (fs : list (string * value)) : value :=
  match fs with
  | [] => VUndefined
  | (k', v) :: r => if k' =? k then v else lookup k r
  end.

Fixpoint has_key (k : string) (fs : list (string * value)) : bool :=
  match fs with
  | [] => false
  | (k', _) :: r => (k' =? k) || has_key k r
  end.

(** Writing an own property: overwrite in place, else append. *)
Fixpoint own_set (fs : list (string * value)) (k : string) (v : value)
  : list (string * value) :=
  match fs with
  | [] => [(k, v)]
  | (k', v') :: r => if k' =? k then (k', v) :: r else (k', v') :: own_set r k v
  end.

(** [o[k] = v] on a plain object, as far as its own properties go.  The
    key [__proto__] names the prototype accessor of [Object.prototype]:
    unless the object has an own property of that name, the assignment
    goes to the accessor (it sets the prototype, or does nothing) and adds
    no own property. *)
Definition obj_set (fs : list (string * value)) (k : string) (v : value)
  : list (string * value) :=
  if (k =? "__proto__") && negb (has_key "__proto__" fs) then fs
  else own_set fs k v.

Definition string_of_nat (n : nat) : string :=
  NilEmpty.string_of_uint (Nat.to_uint n).

Definition string_of_Z (z : Z) : string :=
  NilZero.string_of_int (Z.to_int z).

Definition is_digit (c : ascii) : bool :=
  let n := nat_of_ascii c in (48 <=? n)%nat && (n <=? 57)%nat.

Fixpoint digits_value (s : string) (acc : nat) : option nat :=
  match s with
  | EmptyString => Some acc
  | String c r =>
      if is_digit c then digits_value r (10 * acc + (nat_of_ascii c - 48))
      else None
  end.

(** A property key that is a canonical array index: ["0"], or digits with
    no leading zero. *)
Definition index_of_string (k : string) : option nat :=
  match k with
  | EmptyString => None
  | String "0" EmptyString => Some 0%nat
  | String "0" _ => None
  | _ => digits_value k 0
  end.

Fixpoint string_nth (s : string) (i : nat) : value :=
  match s, i with
  | EmptyString, _ => VUndefined
  | String c _, O => VStr (String c EmptyString)
  | String _ r, S j => string_nth r j
  end.

(** [v.k] and [v[k]] for the property names that the sources write as
    literals ([paths], [get], [operationId], [length], [0], ...).  None of
    these names is a member of a built-in prototype, so the read gives the
    own property or [undefined].  A read with a computed key, which can
    meet an inherited member, is [read_member] of the parser. *)
Definition get (v : value) (k : string) : result value :=
  match v with
  | VUndefined | VNull => Throw (TypeError k)
  | VBool _ | VNum _ => Ok VUndefined
  | VStr s =>
      if k =? "length" then Ok (VNum (Z.of_nat (String.length s)))
      else match index_of_string k with
           | Some i => Ok (string_nth s i)
           | None => Ok VUndefined
           end
  | VArr l =>
      if k =? "length" then Ok (VNum (Z.of_nat (List.length l)))
      else match index_of_string k with
           | Some i => Ok (nth i l VUndefined)
           | None => Ok VUndefined
           end
  | VObj fs => Ok (lookup k fs)
  end.

Fixpoint lookup_own (k : string) (fs : list (string * value)) : option value :=
  match fs with
  | [] => None
  | (k', v) :: r => if k' =? k then Some v else lookup_own k r
  end.

Fixpoint string_nth_own (s : string) (i : nat) : option value :=
  match s, i with
  | EmptyString, _ => None
  | String c _, O => Some (VStr (String c EmptyString))
  | String _ r, S j => string_nth_own r j
  end.

(** The own property [k] of a value that is neither [null] nor
    [undefined], if it has one: a field of an object, an element or the
    length of an array, a character or the length of a string. *)
Definition own_property (v : value) (k : string) : option value :=
  match v with
  | VObj fs => lookup_own k fs
  | VArr l =>
      if k =? "length" then Some (VNum (Z.of_nat (List.length l)))
      else match index_of_string k with
           | Some i => nth_error l i
           | None => None
           end
  | VStr s =>
      if k =? "length" then Some (VNum (Z.of_nat (String.length s)))
      else match index_of_string k with
           | Some i => string_nth_own s i
           | None => None
           end
  | _ => None
  end.

Fixpoint indexed {A} (i : nat) (l : list A) : list (string * A) :=
  match l with
  | [] => []
  | x :: r => (string_of_nat i, x) :: indexed (S i) r
  end.

Fixpoint chars (s : string) : list value :=
  match s with
  | EmptyString => []
  | String c r => VStr (String c EmptyString) :: chars r
  end.

(** [Object.entries(v)] *)
Definition entries (v : value) : result (list (string * value)) :=
  match v with
  | VUndefined | VNull => Throw (TypeError "Object.entries")
  | VBool _ | VNum _ => Ok []
  | VStr s => Ok (indexed 0 (chars s))
  | VArr l => Ok (indexed 0 l)
  | VObj fs => Ok fs
  end.

(** [Object.keys(v)] *)
Definition keys (v : value) : result (list string) :=
  es <- entries v ;; Ok (map fst es).

Definition is_lower (c : ascii) : bool :=
  let n := nat_of_ascii c in (97 <=? n)%nat && (n <=? 122)%nat.

Definition is_upper (c : ascii) : bool :=
  let n := nat_of_ascii c in (65 <=? n)%nat && (n <=? 90)%nat.

Fixpoint map_string (f : ascii -> ascii) (s : string) : string :=
  match s with
  | EmptyString => EmptyString
  | String c r => String (f c) (map_string f r)
  end.

(** [String.prototype.toUpperCase], on the strings the parser applies it to:
    the seven literal method names, made of the letters a-z. *)
Definition upper_char (c : ascii) : ascii :=
  if is_lower c then ascii_of_nat (nat_of_ascii c - 32) else c.

Definition toUpperCase (s : string) : string := map_string upper_char s.

(** [String.prototype.toLowerCase] on code units below 256: A-Z and the
    Latin-1 capitals U+00C0..U+00DE (U+00D7, the multiplication sign, is not
    a letter) move up by 32. *)
Definition lower_char (c : ascii) : ascii :=
  let n := nat_of_ascii c in
  if is_upper c then ascii_of_nat (n + 32)
  else if (192 <=? n)%nat && (n <=? 222)%nat && negb (n =? 215)%nat
       then ascii_of_nat (n + 32)
       else c.

Definition toLowerCase (s : string) : string := map_string lower_char s.

Definition is_alnum (c : ascii) : bool :=
  is_lower c || is_upper c || is_digit c.

(** [s.replace(/[^a-zA-Z0-9]/g, '_')] *)
Definition replace_non_alnum (s : string) : string :=
  map_string (fun c => if is_alnum c then c else "_"%char) s.

Fixpoint join (sep : string) (l : list string) : string :=
  match l with
  | [] => ""
  | [x] => x
  | x :: r => x ++ sep ++ join sep r
  end.

End JS.

(** ** The parser: [src/parser/swaggerParser.js] *)

Module Parser.
Import JS.
Local Open Scope js_scope.

(** What the parser reaches outside itself: the file system, the libraries
    it calls and the parts of the runtime that the model does not compute.
    [JSON_stringify data space] stands for
    [JSON.stringify(data, null, space)], whose result is [undefined] for
    some data.  [fs_writeFile_check path] tells whether [fs.writeFile]
    succeeds on [path]; when it does not, [fs_writeFile_partial path
    content] is what the rejected write left in the file ([fs.writeFile]
    opens and truncates the file before it writes): [None] when the file
    was not touched.  [inherited_text item key] is the text that
    [Array.prototype.join] prints for [item[key]] when [key] is not an own
    property of [item]: the empty string when no prototype of [item] has
    such a member, the source text of the method when one has.
    [Number_toString n] is the text of a number of magnitude 1e21 or more,
    which is printed in exponent form. *)
Record world : Type := {
  fs_access : string -> result unit;
  swagger_parse : string -> result value;
  JSON_stringify : value -> nat -> option string;
  yaml_dump : value -> result string;
  fs_writeFile_check : string -> result unit;
  fs_writeFile_partial : string -> string -> option string;
  inherited_text : value -> string -> string;
  Number_toString : Z -> string
}.

(** The files written so far: path and content, latest first; the first
    entry of a path is what the file holds. *)
Definition files : Type := list (string * string).

(** [extractParameters(parameters)] *)
Definition extractParameter (param : value) : result value :=
  name <- get param "name" ;;
  loc <- get param "in" ;;
  required <- get param "required" ;;
  description <- get param "description" ;;
  schema <- get param "schema" ;;
  example <- get param "example" ;;
  deprecated <- get param "deprecated" ;;
  Ok (VObj [ ("name", name);
             ("in", loc);
             ("required", or_else required (VBool false));
             ("description", or_else description (VStr ""));
             ("schema", or_else schema (VObj []));
             ("example", example);
             ("deprecated", or_else deprecated (VBool false)) ]).

Definition extractParameters (parameters : value) : result value :=
  match parameters with
  | VArr items => ps <- mapM extractParameter items ;; Ok (VArr ps)
  | _ => Throw (TypeError "parameters.map is not a function")
  end.

(** [extractRequestBody(requestBody)] *)
Definition extractRequestBody (requestBody : value) : result value :=
  if negb (truthy requestBody) then Ok VNull
  else
    required <- get requestBody "required" ;;
    description <- get requestBody "description" ;;
    content <- get requestBody "content" ;;
    Ok (VObj [ ("required", or_else required (VBool false));
               ("description", or_else description (VStr ""));
               ("content", or_else content (VObj [])) ]).

(** [extractResponses(responses)] *)
Definition extractResponse (result : list (string * value))
    (entry : string * value) : JS.result (list (string * value)) :=
  let (code, response) := entry in
  description <- get response "description" ;;
  content <- get response "content" ;;
  headers <- get response "headers" ;;
  Ok (obj_set result code
        (VObj [ ("description", or_else description (VStr ""));
                ("content", or_else content (VObj []));
                ("headers", or_else headers (VObj [])) ])).

Definition extractResponses (responses : value) : result value :=
  es <- entries responses ;;
  fields <- foldM extractResponse es [] ;;
  Ok (VObj fields).

Definition methods : list string :=
  ["get"; "post"; "put"; "delete"; "patch"; "head"; "options"].

(** The template literal
    [`${method.toUpperCase()}_${path.replace(/[^a-zA-Z0-9]/g, '_')}`] *)
Definition synthesizedId (method path : string) : string :=
  toUpperCase method ++ "_" ++ replace_non_alnum path.

(** The object literal [endpoint] of [extractEndpoints], its properties
    evaluated in source order. *)
Definition makeEndpoint (path method : string) (operation : value)
  : result value :=
  operationId <- get operation "operationId" ;;
  summary <- get operation "summary" ;;
  description <- get operation "description" ;;
  tags <- get operation "tags" ;;
  params <- get operation "parameters" ;;
  parameters <- extractParameters (or_else params (VArr [])) ;;
  body <- get operation "requestBody" ;;
  requestBody <- extractRequestBody body ;;
  resps <- get operation "responses" ;;
  responses <- extractResponses resps ;;
  security <- get operation "security" ;;
  deprecated <- get operation "deprecated" ;;
  Ok (VObj [ ("path", VStr path);
             ("method", VStr (toUpperCase method));
             ("operationId",
               or_else operationId (VStr (synthesizedId method path)));
             ("summary", or_else summary (VStr ""));
             ("description", or_else description (VStr ""));
             ("tags", or_else tags (VArr []));
             ("parameters", parameters);
             ("requestBody", requestBody);
             ("responses", responses);
             ("security", or_else security (VArr []));
             ("deprecated", or_else deprecated (VBool false)) ]).

(** The body of [for (const method of methods)]: [endpoints] is the array
    being filled. *)
Definition methodStep (path : string) (pathItem : value)
    (endpoints : list value) (method : string) : result (list value) :=
  operation <- get pathItem method ;;
  if truthy operation then
    endpoint <- makeEndpoint path method operation ;;
    Ok (endpoints ++ [endpoint])
  else Ok endpoints.

(** The body of [for (const [path, pathItem] of Object.entries(api.paths))] *)
Definition pathStep (endpoints : list value) (entry : string * value)
  : result (list value) :=
  let (path, pathItem) := entry in
  foldM (methodStep path pathItem) methods endpoints.

(** [extractEndpoints(api)] *)
Definition extractEndpoints (api : value) : result (list value) :=
  paths <- get api "paths" ;;
  if negb (truthy paths) then Ok []
  else
    es <- entries paths ;;
    foldM pathStep es [].

(** [parse(filePath)] *)
Definition parse (w : world) (filePath : string) : result value :=
  rethrow
    (_ <- fs_access w filePath ;;
     api <- swagger_parse w filePath ;;
     endpoints <- extractEndpoints api ;;
     info <- get api "info" ;;
     servers <- get api "servers" ;;
     security <- get api "security" ;;
     components <- get api "components" ;;
     Ok (VObj [ ("info", or_else info (VObj []));
                ("servers", or_else servers (VArr []));
                ("endpoints", VArr endpoints);
                ("security", or_else security (VArr []));
                ("components", or_else components (VObj []));
                ("raw", api) ]))
    ParseFailed.

Definition newline : string := String (ascii_of_nat 10) EmptyString.

(** The text of a number: decimal digits below 1e21. *)
Definition number_text (w : world) (n : Z) : string :=
  if (Z.abs n <? 10 ^ 21)%Z then string_of_Z n else Number_toString w n.

(** ToString of a document value.  An array prints its elements joined by
    commas, [undefined] and [null] elements as the empty string.  An object
    prints through [Object.prototype.toString], unless an own property
    [toString] hides that method: a document holds no function, so the
    conversion then finds nothing to call and throws. *)
Fixpoint toString (w : world) (v : value) {struct v} : result string :=
  match v with
  | VUndefined => Ok "undefined"
  | VNull => Ok "null"
  | VBool true => Ok "true"
  | VBool false => Ok "false"
  | VNum n => Ok (number_text w n)
  | VStr s => Ok s
  | VArr l =>
      texts <- (fix elements (l : list value) : result (list string) :=
                  match l with
                  | [] => Ok []
                  | x :: r =>
                      t <- match x with
                           | VUndefined | VNull => Ok ""
                           | _ => toString w x
                           end ;;
                      ts <- elements r ;;
                      Ok (t :: ts)
                  end) l ;;
      Ok (join "," texts)
  | VObj fs =>
      if has_key "toString" fs
      then Throw (TypeError "Cannot convert object to primitive value")
      else Ok "[object Object]"
  end.

(** What a read with a computed key gives: an own property, or a member
    found on the prototype chain, of which only the printed text is kept. *)
Inductive member : Type :=
| Own (v : value)
| Inherited (text : string).

(** [item[key]] for a computed [key]. *)
Definition read_member (w : world) (item : value) (key : string)
  : result member :=
  match item with
  | VUndefined | VNull => Throw (TypeError key)
  | _ =>
      match own_property item key with
      | Some v => Ok (Own v)
      | None => Ok (Inherited (inherited_text w item key))
      end
  end.

(** The text of one element in [Array.prototype.join]. *)
Definition member_text (w : world) (m : member) : result string :=
  match m with
  | Own VUndefined | Own VNull => Ok ""
  | Own v => toString w v
  | Inherited text => Ok text
  end.

(** [convertToCsv(data)] *)
Definition csvRow (w : world) (headers : list string) (item : value)
  : result string :=
  cells <- mapM (read_member w item) headers ;;
  texts <- mapM (member_text w) cells ;;
  Ok (join "," texts).

Definition convertToCsv (w : world) (data : value) : result string :=
  if negb (truthy data) then Ok ""
  else
    len <- get data "length" ;;
    if negb (truthy len) then Ok ""
    else
      first <- get data "0" ;;
      headers <- keys first ;;
      match data with
      | VArr items =>
          rows <- mapM (csvRow w headers) items ;;
          Ok (join newline (join "," headers :: rows))
      | _ => Throw (TypeError "data.forEach is not a function")
      end.

(** [saveToFile(data, outputPath, format = 'json')]: the outcome and the
    files afterwards.  [None] is an omitted [format]. *)
Definition fileContent (w : world) (data : value) (format : string)
  : result (option string) :=
  let fmt := toLowerCase format in
  if fmt =? "json" then Ok (JSON_stringify w data 2)
  else if fmt =? "yaml" then c <- yaml_dump w data ;; Ok (Some c)
  else if fmt =? "txt" then Ok (JSON_stringify w data 2)
  else if fmt =? "csv" then c <- convertToCsv w data ;; Ok (Some c)
  else Throw (UnsupportedFormat format).

(** [fs.writeFile(outputPath, content, 'utf8')]: an [undefined] content is
    refused before the file is opened; a write that is rejected later may
    leave the file created, emptied or partly written. *)
Definition writeFile (w : world) (outputPath : string)
    (content : option string) (fs : files) : result unit * files :=
  match content with
  | None => (Throw (TypeError "data"), fs)
  | Some c =>
      match fs_writeFile_check w outputPath with
      | Ok _ => (Ok tt, (outputPath, c) :: fs)
      | Throw e =>
          (Throw e,
           match fs_writeFile_partial w outputPath c with
           | Some partial => (outputPath, partial) :: fs
           | None => fs
           end)
      end
  end.

Definition saveToFile (w : world) (data : value) (outputPath : string)
    (format : option string) (fs : files) : result unit * files :=
  let format := match format with Some f => f | None => "json" end in
  match fileContent w data format with
  | Ok content =>
      let (r, fs') := writeFile w outputPath content fs in
      (rethrow r SaveFailed, fs')
  | Throw e => (Throw (SaveFailed e), fs)
  end.

(** [validate(filePath)] *)
Definition validate (w : world) (filePath : string) : result bool :=
  match swagger_parse w filePath with
  | Ok _ => Ok true
  | Throw _ => Ok false
  end.

End Parser.

(** ** The command-line driver: [swagX parse], [swagX test], [swagX scan] *)

Module Cli.
Import JS.
Import Parser.

(** The Number that [parseInt] returns.  [Exact n] is the integer [n], of
    magnitude at most 2^53: every such integer is a double (the sign of a
    zero is not kept).  [Rounded n] is what the runtime makes of a larger
    integer [n]: the double nearest to it, or an infinity. *)
Inductive number : Type :=
| NaN
| Exact (n : Z)
| Rounded (n : Z).

Definition number_of_integer (n : Z) : number :=
  if (Z.abs n <=? 2 ^ 53)%Z then Exact n else Rounded n.

(** The configuration object handed to [new SecurityTester(...)].  A
    missing [--base-url] is [None] ([undefined]). *)
Record tester_config : Type := {
  baseUrl : option string;
  timeout : number;
  sslVerify : bool
}.

(** The security tester and the reporter, which the driver only calls:
    every call may return or throw.  [reporter_new] is [new Reporter()]. *)
Record collaborators : Type := {
  tester_new : tester_config -> result unit;
  tester_runTests : tester_config -> value -> result value;
  reporter_new : result unit;
  reporter_printEndpoints : value -> result unit;
  reporter_printTestResults : value -> result unit;
  reporter_saveReport : value -> string -> result unit
}.

(** The console lines of the driver, by the statement that prints them. *)
Inductive message : Type :=
| MsgParsing
| MsgResultSaved (output : string)
| MsgParseFailed (e : exn)
| MsgTesting
| MsgReportSaved (report : string)
| MsgTestFailed (e : exn)
| MsgScanning
| MsgParsed (count : value)
| MsgScanDone (reportPath : string)
| MsgNoBaseUrl
| MsgBaseUrlHint
| MsgScanFailed (e : exn).

(** What a run does that can be observed from outside. *)
Inductive event : Type :=
| ConsoleLog (m : message)
| ConsoleError (m : message)
| NewTester (cfg : tester_config)
| RunTests (cfg : tester_config) (swaggerData : value)
| PrintEndpoints (data : value)
| PrintTestResults (results : value)
| SaveReport (results : value) (reportPath : string)
| Exit (code : Z).

Record state : Type := {
  trace : list event;
  disk : files
}.

(** Commands: a state monad over [state] whose result may be a throw. *)
Definition cmd (A : Type) : Type := state -> state * result A.

Definition ret {A} (a : A) : cmd A := fun s => (s, Ok a).

Definition cbind {A B} (c : cmd A) (k : A -> cmd B) : cmd B :=
  fun s =>
    match c s with
    | (s', Ok a) => k a s'
    | (s', Throw e) => (s', Throw e)
    end.

Declare Scope cmd_scope.
Delimit Scope cmd_scope with cmd.
Notation "x <~ c ;; k" := (cbind c (fun x => k))
  (at level 61, c at next level, right associativity) : cmd_scope.
Notation "c ;;; k" := (cbind c (fun _ => k))
  (at level 61, right associativity) : cmd_scope.
Local Open Scope cmd_scope.

Definition emit (e : event) : cmd unit :=
  fun s => ({| trace := trace s ++ [e]; disk := disk s |}, Ok tt).

Definition lift {A} (r : result A) : cmd A := fun s => (s, r).

(** A call into a collaborator: the call is observed, then it returns or
    throws. *)
Definition call {A} (e : event) (r : result A) : cmd A :=
  emit e ;;; lift r.

(** [try { body } catch (error) { console.error(msg(error)); process.exit(1) }] *)
Definition guarded (body : cmd unit) (msg : exn -> message) : state -> state :=
  fun s =>
    match body s with
    | (s', Ok _) => s'
    | (s', Throw e) =>
        {| trace := trace s' ++ [ConsoleError (msg e); Exit 1]; disk := disk s' |}
    end.

Definition is_space (c : ascii) : bool :=
  let n := nat_of_ascii c in
  ((9 <=? n)%nat && (n <=? 13)%nat) || (n =? 32)%nat || (n =? 160)%nat.

Fixpoint skip_space (s : string) : string :=
  match s with
  | String c r => if is_space c then skip_space r else s
  | EmptyString => s
  end.

Definition digit_in (radix : nat) (c : ascii) : option nat :=
  let n := nat_of_ascii c in
  let d := if is_digit c then Some (n - 48)%nat
           else if is_lower c then Some (n - 87)%nat
           else if is_upper c then Some (n - 55)%nat
           else None in
  match d with
  | Some v => if (v <? radix)%nat then Some v else None
  | None => None
  end.

(** The longest prefix of digits in [radix], as a number; [None] when the
    prefix is empty. *)
Fixpoint leading_number (radix : nat) (s : string) (acc : option Z)
  : option Z :=
  match s with
  | EmptyString => acc
  | String c r =>
      match digit_in radix c with
      | Some d =>
          leading_number radix r
            (Some (Z.of_nat radix * match acc with Some a => a | None => 0 end
                   + Z.of_nat d)%Z)
      | None => acc
      end
  end.

(** [parseInt(s)] with no radix argument. *)
Definition parseInt (s : string) : number :=
  let s := skip_space s in
  let (negative, s) :=
    match s with
    | String "-" r => (true, r)
    | String "+" r => (false, r)
    | _ => (false, s)
    end in
  let (radix, s) :=
    match s with
    | String "0" (String "x" r) => (16%nat, r)
    | String "0" (String "X" r) => (16%nat, r)
    | _ => (10%nat, s)
    end in
  match leading_number radix s None with
  | Some n => number_of_integer (if negative then (- n)%Z else n)
  | None => NaN
  end.

(** An option of the command line is [None] when the user did not give it;
    commander then supplies the declared default, if there is one. *)
Definition with_default (given : option string) (dflt : string) : string :=
  match given with
  | Some v => v
  | None => dflt
  end.

(** Truthiness of an option value that is a string or [undefined]. *)
Definition given_nonempty (o : option string) : bool :=
  match o with
  | Some v => negb (v =? "")
  | None => false
  end.

Record parse_options : Type := {
  parse_output : option string;
  parse_format : option string
}.

Record test_options : Type := {
  test_baseUrl : option string;
  test_timeout : option string;
  test_report : option string;
  test_noSslVerify : bool
}.

Record scan_options : Type := {
  scan_baseUrl : option string;
  scan_output : option string;
  scan_report : option string
}.

Section Driver.

Variable w : world.
Variable c : collaborators.

Definition save (data : value) (output : string) (format : option string)
  : cmd unit :=
  fun s =>
    let (r, fs) := saveToFile w data output format (disk s) in
    ({| trace := trace s; disk := fs |}, r).

(** [swagX parse <file> [-o output] [-f format]] *)
Definition parse_action (file : string) (options : parse_options)
  : state -> state :=
  guarded
    (emit (ConsoleLog MsgParsing) ;;;
     result <~ lift (parse w file) ;;
     if given_nonempty (parse_output options) then
       let output := with_default (parse_output options) "" in
       save result output (Some (with_default (parse_format options) "table")) ;;;
       emit (ConsoleLog (MsgResultSaved output))
     else
       lift (reporter_new c) ;;;
       call (PrintEndpoints result) (reporter_printEndpoints c result))
    MsgParseFailed.

(** [swagX test <file> [-b url] [-t ms] [-r report] [--no-ssl-verify]] *)
Definition test_config (options : test_options) : tester_config :=
  {| baseUrl := test_baseUrl options;
     timeout := parseInt (with_default (test_timeout options) "5000");
     sslVerify := negb (test_noSslVerify options) |}.

Definition test_action (file : string) (options : test_options)
  : state -> state :=
  guarded
    (emit (ConsoleLog MsgParsing) ;;;
     swaggerData <~ lift (parse w file) ;;
     emit (ConsoleLog MsgTesting) ;;;
     let cfg := test_config options in
     call (NewTester cfg) (tester_new c cfg) ;;;
     results <~ call (RunTests cfg swaggerData)
                     (tester_runTests c cfg swaggerData) ;;
     lift (reporter_new c) ;;;
     if given_nonempty (test_report options) then
       let report := with_default (test_report options) "" in
       call (SaveReport results report) (reporter_saveReport c results report) ;;;
       emit (ConsoleLog (MsgReportSaved report))
     else
       call (PrintTestResults results) (reporter_printTestResults c results))
    MsgTestFailed.

(** [swagX scan <file> [-b url] [-o dir] [-r report]] *)
Definition scan_config (url : string) : tester_config :=
  {| baseUrl := Some url; timeout := Exact 5000; sslVerify := true |}.

Definition scan_action (file : string) (options : scan_options)
  : state -> state :=
  guarded
    (emit (ConsoleLog MsgScanning) ;;;
     swaggerData <~ lift (parse w file) ;;
     endpoints <~ lift (get swaggerData "endpoints") ;;
     count <~ lift (get endpoints "length") ;;
     emit (ConsoleLog (MsgParsed count)) ;;;
     if given_nonempty (scan_baseUrl options) then
       emit (ConsoleLog MsgTesting) ;;;
       let cfg := scan_config (with_default (scan_baseUrl options) "") in
       call (NewTester cfg) (tester_new c cfg) ;;;
       results <~ call (RunTests cfg swaggerData)
                       (tester_runTests c cfg swaggerData) ;;
       lift (reporter_new c) ;;;
       let report := with_default (scan_report options) "swagX-report.json" in
       let reportPath :=
         if given_nonempty (scan_output options)
         then (with_default (scan_output options) "" ++ "/" ++ report)%string
         else report in
       call (SaveReport results reportPath)
            (reporter_saveReport c results reportPath) ;;;
       emit (ConsoleLog (MsgScanDone reportPath))
     else
       emit (ConsoleLog MsgNoBaseUrl) ;;;
       emit (ConsoleLog MsgBaseUrlHint))
    MsgScanFailed.

End Driver.

Definition initial : state := {| trace := []; disk := [] |}.

End Cli.

(** ** Concrete documents, worlds and runs used by the examples below *)

Module Examples.
Import JS.
Import Parser.
Import Cli.

(** [{ responses: {} }]: an operation that declares nothing else. *)
Definition bare_operation : value := VObj [("responses", VObj [])].

(** [{ operationId: 'getProfile', responses: {} }] *)
Definition named_operation : value :=
  VObj [("operationId", VStr "getProfile"); ("responses", VObj [])].

(** Two paths that differ in one non-alphanumeric character, each with a
    GET operation that declares no [operationId]. *)
Definition colliding_api : value :=
  VObj [ ("openapi", VStr "3.0.0");
         ("info", VObj [("title", VStr "users"); ("version", VStr "1")]);
         ("paths", VObj [ ("/user-profile", VObj [("get", bare_operation)]);
                          ("/user_profile", VObj [("get", bare_operation)]) ]) ].

(** A Swagger 2.0 document whose operation takes its payload as a [body]
    parameter. *)
Definition body_parameter : value :=
  VObj [ ("name", VStr "pet"); ("in", VStr "body"); ("required", VBool true);
         ("schema", VObj [("type", VStr "object")]) ].

Definition swagger2_api : value :=
  VObj [ ("swagger", VStr "2.0");
         ("info", VObj [("title", VStr "pets"); ("version", VStr "1")]);
         ("paths",
           VObj [ ("/pets",
                   VObj [("post",
                          VObj [ ("parameters", VArr [body_parameter]);
                                 ("responses", VObj []) ])]) ]) ].

(** A document with two paths, the second declaring POST before GET. *)
Definition two_paths_api : value :=
  VObj [ ("paths",
           VObj [ ("/b", VObj [("get", bare_operation)]);
                  ("/a", VObj [ ("post", bare_operation);
                                ("summary", VStr "a");
                                ("get", bare_operation) ]) ]) ].

(** A world in which every path is readable and holds [api]; JSON and YAML
    output are left abstract by fixed texts. *)
Definition world_of (api : value) : world :=
  {| fs_access := fun _ => Ok tt;
     swagger_parse := fun _ => Ok api;
     JSON_stringify := fun _ _ => Some "{}";
     yaml_dump := fun _ => Ok "{}";
     fs_writeFile_check := fun _ => Ok tt;
     fs_writeFile_partial := fun _ _ => None;
     inherited_text := fun _ _ => "";
     Number_toString := fun _ => "Infinity" |}.

(** A world in which no file exists. *)
Definition empty_world : world :=
  {| fs_access := fun _ => Throw (Rejected "ENOENT");
     swagger_parse := fun _ => Throw (Rejected "ENOENT");
     JSON_stringify := fun _ _ => Some "{}";
     yaml_dump := fun _ => Ok "{}";
     fs_writeFile_check := fun _ => Ok tt;
     fs_writeFile_partial := fun _ _ => None;
     inherited_text := fun _ _ => "";
     Number_toString := fun _ => "Infinity" |}.

(** Collaborators that accept every call and report nothing. *)
Definition quiet : collaborators :=
  {| tester_new := fun _ => Ok tt;
     tester_runTests := fun _ _ => Ok (VObj []);
     reporter_new := Ok tt;
     reporter_printEndpoints := fun _ => Ok tt;
     reporter_printTestResults := fun _ => Ok tt;
     reporter_saveReport := fun _ _ => Ok tt |}.

Definition no_scan_options : scan_options :=
  {| scan_baseUrl := None; scan_output := None; scan_report := None |}.

(** A scan of a local server, with no other option. *)
Definition local_scan_options : scan_options :=
  {| scan_baseUrl := Some "http://localhost:3000";
     scan_output := None; scan_report := None |}.

Definition no_test_options : test_options :=
  {| test_baseUrl := None; test_timeout := None; test_report := None;
     test_noSslVerify := false |}.

(** The responses of an operation: 200, one under the name [__proto__] and
    default, the last without description. *)
Definition declared_responses : list (string * value) :=
  [ ("200", VObj [("description", VStr "ok")]);
    ("__proto__", VObj [("description", VStr "hidden")]);
    ("default", VObj []) ].

(** A document whose only operation declares no [responses]. *)
Definition no_responses_api : value :=
  VObj [ ("paths",
           VObj [ ("/pets", VObj [("get", VObj [("summary", VStr "list")])]) ]) ].



(** A world whose disk is full: a write empties the file and is then
    rejected. *)
Definition full_disk_world : world :=
  {| fs_access := fun _ => Ok tt;
     swagger_parse := fun _ => Ok VNull;
     JSON_stringify := fun _ _ => Some "{}";
     yaml_dump := fun _ => Ok "{}";
     fs_writeFile_check := fun _ => Throw (Rejected "ENOSPC");
     fs_writeFile_partial := fun _ _ => Some "";
     inherited_text := fun _ _ => "";
     Number_toString := fun _ => "Infinity" |}.

(** A world whose [JSON.stringify] gives [undefined]. *)
Definition mute_world : world :=
  {| fs_access := fun _ => Ok tt;
     swagger_parse := fun _ => Ok VNull;
     JSON_stringify := fun _ _ => None;
     yaml_dump := fun _ => Ok "";
     fs_writeFile_check := fun _ => Ok tt;
     fs_writeFile_partial := fun _ _ => None;
     inherited_text := fun _ _ => "";
     Number_toString := fun _ => "Infinity" |}.

End Examples.

(** ** Vocabulary of the statements *)

Module Terms.
Import JS.
Import Parser.
Import Cli.

(** The value of a property, [undefined] when reading it throws. *)
Definition field (v : value) (k : string) : value :=
  match get v k with
  | Ok x => x
  | Throw _ => VUndefined
  end.

(** The fields of an Endpoint record, in the order of the object literal. *)
Definition endpoint_keys : list string :=
  ["path"; "method"; "operationId"; "summary"; "description"; "tags";
   "parameters"; "requestBody"; "responses"; "security"; "deprecated"].

(** The operations a path item declares, in the order of [methods]. *)
Definition declares (pathItem : value) (method : string) : bool :=
  truthy (field pathItem method).

(** The (path, method) operations a [paths] object declares, path by path
    in the order of its entries and, within a path, in the order of
    [methods]. *)
Definition declared_operations (es : list (string * value))
  : list (string * string * value) :=
  flat_map (fun entry =>
              map (fun m => (fst entry, m, field (snd entry) m))
                  (filter (declares (snd entry)) methods)) es.

(** The entries of [api.paths], none when the field is missing or falsy. *)
Definition path_entries (api : value) : list (string * value) :=
  match entries (field api "paths") with
  | Ok es => es
  | Throw _ => []
  end.

(** The path and the method of an endpoint of the catalog. *)
Definition path_and_method (e : value) : value * value :=
  (field e "path", field e "method").

(** The record that [extractParameters] builds from the parameter [p] of
    the document. *)
Definition parameter_record (p : value) : value :=
  VObj [ ("name", field p "name");
         ("in", field p "in");
         ("required", or_else (field p "required") (VBool false));
         ("description", or_else (field p "description") (VStr ""));
         ("schema", or_else (field p "schema") (VObj []));
         ("example", field p "example");
         ("deprecated", or_else (field p "deprecated") (VBool false)) ].

(** The formats that [saveToFile] accepts, after lowercasing. *)
Definition supported_formats : list string := ["json"; "yaml"; "txt"; "csv"].

(** Ingestion fails when the file cannot be accessed, when swagger-parser
    rejects it, or when the endpoints of the parsed document cannot be
    extracted. *)
Definition ingestion_fails (w : world) (file : string) : Prop :=
  (exists e, fs_access w file = Throw e)
  \/ (exists e, swagger_parse w file = Throw e)
  \/ (exists api e, swagger_parse w file = Ok api
                    /\ extractEndpoints api = Throw e).

(** The tester configurations a trace constructs a tester or runs tests
    with. *)
Definition configs_used (t : list event) : list tester_config :=
  flat_map (fun e => match e with
                     | NewTester cfg => [cfg]
                     | RunTests cfg _ => [cfg]
                     | _ => []
                     end) t.

(** The path and the method that the endpoint of a declared operation
    gets. *)
Definition operation_key (o : string * string * value) : value * value :=
  (VStr (fst (fst o)), VStr (toUpperCase (snd (fst o)))).

(** [undefined] and [null], the two values whose properties cannot be
    read. *)
Definition nullish (v : value) : bool :=
  match v with
  | VUndefined | VNull => true
  | _ => false
  end.

(** The record that [extractRequestBody] builds from a request body. *)
Definition request_body_record (requestBody : value) : value :=
  VObj [ ("required", or_else (field requestBody "required") (VBool false));
         ("description", or_else (field requestBody "description") (VStr ""));
         ("content", or_else (field requestBody "content") (VObj [])) ].

(** The record that [extractResponses] builds from one response. *)
Definition response_record (response : value) : value :=
  VObj [ ("description", or_else (field response "description") (VStr ""));
         ("content", or_else (field response "content") (VObj []));
         ("headers", or_else (field response "headers") (VObj [])) ].

(** A parameter list that [extractParameters] accepts: an array without
    [null] or [undefined] elements. *)
Definition parameters_ok (parameters : value) : bool :=
  match parameters with
  | VArr items => forallb (fun p => negb (nullish p)) items
  | _ => false
  end.

(** A responses value that [extractResponses] accepts: neither [null] nor
    [undefined], and none of its entries is. *)
Definition responses_ok (responses : value) : bool :=
  match entries responses with
  | Ok es => forallb (fun e => negb (nullish (snd e))) es
  | Throw _ => false
  end.

Definition operation_ok (operation : value) : bool :=
  parameters_ok (or_else (field operation "parameters") (VArr []))
  && responses_ok (field operation "responses").

(** A path item whose declared operations can all be extracted. *)
Definition path_item_ok (pathItem : value) : bool :=
  negb (nullish pathItem)
  && forallb (fun m => negb (declares pathItem m)
                       || operation_ok (field pathItem m)) methods.

(** A parsed document whose endpoints can be extracted. *)
Definition document_ok (api : value) : bool :=
  negb (nullish api)
  && (negb (truthy (field api "paths"))
      || forallb (fun e => path_item_ok (snd e)) (path_entries api)).

Definition is_object (v : value) : bool :=
  match v with
  | VObj _ => true
  | _ => false
  end.








(** The endpoint [e] is an operation of the path [p]. *)
Definition has_path (p : string) (e : value) : bool :=
  match field e "path" with
  | VStr q => q =? p
  | _ => false
  end.

Fixpoint string_forall (p : ascii -> bool) (s : string) : bool :=
  match s with
  | EmptyString => true
  | String c r => p c && string_forall p r
  end.

(** A letter, a digit or an underscore. *)
Definition identifier_char (c : ascii) : bool :=
  is_alnum c || (c =? "_")%char.

(** An event other than an error line or an exit. *)
Definition quiet_event (e : event) : bool :=
  match e with
  | ConsoleError _ | Exit _ => false
  | _ => true
  end.

(** A trace without error line or exit, or one that ends with one error
    line followed by the exit with status 1 and has neither before. *)
Fixpoint ends_well (t : list event) : bool :=
  match t with
  | [] => true
  | [ConsoleError _; Exit 1] => true
  | e :: r => quiet_event e && ends_well r
  end.

(** An event that hands test results to the reporter. *)
Definition reported (e : event) : option value :=
  match e with
  | SaveReport results _ => Some results
  | PrintTestResults results => Some results
  | _ => None
  end.

End Terms.

(** ** Properties of the parser *)

Module ParserFacts.
Import JS.
Import Parser.
Import Terms.
Local Open Scope js_scope.

Lemma bind_Ok {A B} (c : result A) (k : A -> result B) (b : B) :
  bind c k = Ok b -> exists a, c = Ok a /\ k a = Ok b.
Proof.
  destruct c as [a | e]; simpl; intros H.
  - exists a. split; [reflexivity | exact H].
  - discriminate H.
Qed.

(** Splits a successful sequence of binds into its successful steps. *)
Ltac bind_inv H :=
  repeat match type of H with
    | bind ?c ?k = Ok ?b =>
        let a := fresh "a" in
        let Ha := fresh "Ha" in
        apply bind_Ok in H; destruct H as (a & Ha & H)
    end.

Lemma get_field (v : value) (k : string) (x : value) :
  get v k = Ok x -> field v k = x.
Proof. unfold field; intros ->; reflexivity. Qed.

Lemma field_VObj (fs : list (string * value)) (k : string) :
  field (VObj fs) k = lookup k fs.
Proof. reflexivity. Qed.

(** A successful [makeEndpoint] builds the object literal of the source. *)
Lemma makeEndpoint_shape (path method : string) (operation e : value) :
  makeEndpoint path method operation = Ok e ->
  exists parameters requestBody responses,
    e = VObj [ ("path", VStr path);
               ("method", VStr (toUpperCase method));
               ("operationId",
                 or_else (field operation "operationId")
                         (VStr (synthesizedId method path)));
               ("summary", or_else (field operation "summary") (VStr ""));
               ("description", or_else (field operation "description") (VStr ""));
               ("tags", or_else (field operation "tags") (VArr []));
               ("parameters", parameters);
               ("requestBody", requestBody);
               ("responses", responses);
               ("security", or_else (field operation "security") (VArr []));
               ("deprecated", or_else (field operation "deprecated") (VBool false)) ]
    /\ extractParameters (or_else (field operation "parameters") (VArr []))
       = Ok parameters
    /\ extractRequestBody (field operation "requestBody") = Ok requestBody
    /\ extractResponses (field operation "responses") = Ok responses.
Proof.
  unfold makeEndpoint; intros H.
  bind_inv H.
  repeat match goal with
         | Hg : get _ _ = Ok _ |- _ => apply get_field in Hg; subst
         end.
  inversion H; subst; clear H.
  eexists _, _, _; repeat split; eassumption.
Qed.

(** The endpoints that the method loop adds for one path are appended to
    those found before, one for each declared method and in the order of
    the method list. *)
Lemma method_loop_appends (path : string) (pathItem : value) :
  forall (ms : list string) (acc r : list value),
    foldM (methodStep path pathItem) ms acc = Ok r ->
    exists added,
      r = acc ++ added
      /\ Forall2 (fun m e => exists op,
                      get pathItem m = Ok op /\ truthy op = true
                      /\ makeEndpoint path m op = Ok e)
                 (filter (declares pathItem) ms) added.
Proof.
  induction ms as [| m ms IH]; simpl; intros acc r H.
  - inversion H; subst. exists []. rewrite app_nil_r. split; constructor.
  - apply bind_Ok in H. destruct H as (acc' & Hstep & Hrest).
    unfold methodStep in Hstep.
    apply bind_Ok in Hstep. destruct Hstep as (op & Hop & Hstep).
    unfold declares. rewrite (get_field _ _ _ Hop).
    destruct (truthy op) eqn:Hop_truthy.
    + apply bind_Ok in Hstep. destruct Hstep as (e & He & Hacc).
      inversion Hacc; subst acc'; clear Hacc.
      destruct (IH _ _ Hrest) as (added & -> & Hadded).
      exists (e :: added). rewrite <- app_assoc. split; [reflexivity |].
      constructor; [exists op; auto | exact Hadded].
    + inversion Hstep; subst acc'; clear Hstep.
      exact (IH _ _ Hrest).
Qed.

Lemma foldM_cons {A S} (body : S -> A -> result S) (x : A) (l : list A) (s : S) :
  foldM body (x :: l) s = bind (body s x) (foldM body l).
Proof. reflexivity. Qed.

Lemma declared_operations_cons (path : string) (pathItem : value)
    (es : list (string * value)) :
  declared_operations ((path, pathItem) :: es)
  = map (fun m => (path, m, field pathItem m)) (filter (declares pathItem) methods)
    ++ declared_operations es.
Proof. reflexivity. Qed.

Lemma path_loop_appends :
  forall (es : list (string * value)) (acc r : list value),
    foldM pathStep es acc = Ok r ->
    exists added,
      r = acc ++ added
      /\ Forall2 (fun o e => truthy (snd o) = true
                             /\ makeEndpoint (fst (fst o)) (snd (fst o)) (snd o) = Ok e)
                 (declared_operations es) added.
Proof.
  induction es as [| [path pathItem] es IH]; intros acc r H.
  - inversion H; subst. exists []. rewrite app_nil_r. split; constructor.
  - rewrite foldM_cons in H.
    apply bind_Ok in H. destruct H as (acc' & Hpath & Hrest).
    unfold pathStep in Hpath.
    destruct (method_loop_appends _ _ _ _ _ Hpath) as (here & -> & Hhere).
    destruct (IH _ _ Hrest) as (later & -> & Hlater).
    exists (here ++ later). rewrite <- app_assoc. split; [reflexivity |].
    rewrite declared_operations_cons.
    apply Forall2_app; [| exact Hlater].
    clear - Hhere.
    induction Hhere as [| m e ms added (op & Hop & Ht & He) _ IHh].
    + constructor.
    + cbn [map]. constructor; [| exact IHh].
      cbn [fst snd]. rewrite (get_field _ _ _ Hop). split; assumption.
Qed.

(** [extractEndpoints] returns exactly one endpoint for each declared
    operation, in the order of [declared_operations]. *)
Lemma extractEndpoints_declared (api : value) (eps : list value) :
  extractEndpoints api = Ok eps ->
  truthy (field api "paths") = false /\ eps = []
  \/ truthy (field api "paths") = true
     /\ exists es,
          entries (field api "paths") = Ok es
          /\ Forall2 (fun o e => truthy (snd o) = true
                                 /\ makeEndpoint (fst (fst o)) (snd (fst o)) (snd o) = Ok e)
                     (declared_operations es) eps.
Proof.
  unfold extractEndpoints; intros H.
  apply bind_Ok in H. destruct H as (paths & Hpaths & H).
  rewrite (get_field _ _ _ Hpaths).
  destruct (truthy paths); simpl in H.
  - right. split; [reflexivity |].
    apply bind_Ok in H. destruct H as (es & Hes & H).
    exists es. split; [exact Hes |].
    destruct (path_loop_appends _ _ _ H) as (added & -> & Hadded).
    exact Hadded.
  - left. inversion H. split; reflexivity.
Qed.

End ParserFacts.

(** ** The endpoint catalog: methods, order and operation identifiers *)

Module CatalogFacts.
Import JS.
Import Parser.
Import Terms.
Import ParserFacts.
Import Examples.

Lemma makeEndpoint_path_and_method (path method : string) (operation e : value) :
  makeEndpoint path method operation = Ok e ->
  path_and_method e = (VStr path, VStr (toUpperCase method)).
Proof.
  intros H. apply makeEndpoint_shape in H.
  destruct H as (ps & rb & rs & -> & _). reflexivity.
Qed.

Lemma declared_operations_methods (es : list (string * value)) :
  Forall (fun o => In (snd (fst o)) methods) (declared_operations es).
Proof.
  unfold declared_operations. apply Forall_forall. intros [[p m] op] Hin.
  apply in_flat_map in Hin. destruct Hin as ([p' item] & _ & Hin).
  apply in_map_iff in Hin. destruct Hin as (m' & Heq & Hin).
  inversion Heq; subst. apply filter_In in Hin. exact (proj1 Hin).
Qed.

Lemma upper_methods (m : string) :
  In m methods ->
  In (VStr (toUpperCase m))
     (map VStr ["GET"; "POST"; "PUT"; "DELETE"; "PATCH"; "HEAD"; "OPTIONS"]).
Proof.
  intros Hin. apply in_map.
  change ["GET"; "POST"; "PUT"; "DELETE"; "PATCH"; "HEAD"; "OPTIONS"]
    with (map toUpperCase methods).
  apply in_map. exact Hin.
Qed.

(** C8.  Every endpoint that [extractEndpoints] returns has as method one of
    GET, POST, PUT, DELETE, PATCH, HEAD, OPTIONS (the uppercased entries of
    the method list); the endpoints are those of the declared operations,
    path by path in the order of the entries of [api.paths] and, within one
    path, in the fixed order get, post, put, delete, patch, head, options;
    and an API object without a [paths] field gives the empty list. *)
Theorem extractEndpoints_methods_and_order (api : value) :
  (forall fs, api = VObj fs -> lookup "paths" fs = VUndefined ->
              extractEndpoints api = Ok [])
  /\ (forall eps, extractEndpoints api = Ok eps ->
        Forall (fun e =>
                  In (field e "method")
                     (map VStr ["GET"; "POST"; "PUT"; "DELETE"; "PATCH";
                                "HEAD"; "OPTIONS"])) eps
        /\ map path_and_method eps
           = map (fun o => (VStr (fst (fst o)), VStr (toUpperCase (snd (fst o)))))
                 (flat_map
                    (fun entry =>
                       map (fun m => (fst entry, m, field (snd entry) m))
                           (filter (fun m => truthy (field (snd entry) m))
                                   ["get"; "post"; "put"; "delete"; "patch";
                                    "head"; "options"]))
                    (path_entries api))).
Proof.
  split.
  - intros fs -> Hnone. unfold extractEndpoints. simpl. rewrite Hnone. reflexivity.
  - intros eps H.
    change (flat_map _ (path_entries api))
      with (declared_operations (path_entries api)).
    apply extractEndpoints_declared in H.
    destruct H as [[Hfalsy ->] | [_ (es & Hes & Hall)]].
    + split; [constructor |].
      unfold path_entries.
      destruct (field api "paths") as [| | [] | n | s | l | fs];
        try discriminate Hfalsy; try reflexivity.
      simpl in Hfalsy. apply negb_false_iff, String.eqb_eq in Hfalsy.
      subst s. reflexivity.
    + unfold path_entries. rewrite Hes.
      pose proof (declared_operations_methods es) as Hms.
      induction Hall as [| o e os eps' [_ He] _ IH]; [split; constructor |].
      inversion Hms as [| ? ? Hm Hms']; subst.
      destruct (IH Hms') as [IHa IHb].
      pose proof (makeEndpoint_path_and_method _ _ _ _ He) as Hpm.
      split.
      * constructor; [| exact IHa].
        unfold path_and_method in Hpm. inversion Hpm as [[Hp Hmeth]].
        rewrite Hmeth. apply upper_methods. exact Hm.
      * cbn [map]. rewrite Hpm, IHb. reflexivity.
Qed.

(** The run of C8 on a document with two paths whose second path declares
    POST before GET: the endpoints come out as /b GET, /a GET, /a POST. *)
Lemma extractEndpoints_methods_and_order_witness :
  exists eps,
    extractEndpoints two_paths_api = Ok eps
    /\ map path_and_method eps
       = [ (VStr "/b", VStr "GET"); (VStr "/a", VStr "GET");
           (VStr "/a", VStr "POST") ]
    /\ extractEndpoints (VObj [("info", VObj [])]) = Ok [].
Proof.
  eexists. split; [reflexivity |]. split.
  - rewrite (proj2 (proj2 (extractEndpoints_methods_and_order two_paths_api) _
                      eq_refl)).
    reflexivity.
  - exact (proj1 (extractEndpoints_methods_and_order (VObj [("info", VObj [])]))
                 _ eq_refl eq_refl).
Defined.

(** Among the method names, the uppercased name followed by an underscore
    determines the method and what follows it. *)
Lemma synthesized_prefix_injective (m1 m2 s1 s2 : string) :
  In m1 methods -> In m2 methods ->
  (toUpperCase m1 ++ "_" ++ s1 = toUpperCase m2 ++ "_" ++ s2)%string ->
  m1 = m2 /\ s1 = s2.
Proof.
  unfold methods. simpl. intros H1 H2 Heq.
  repeat (destruct H1 as [<- | H1]; [| try contradiction]);
    repeat (destruct H2 as [<- | H2]; [| try contradiction]);
    cbn in Heq; try discriminate Heq;
    (split; [reflexivity | congruence]).
Qed.

(** C1, as the parser implements it.  The [operationId] of an endpoint is
    the operation's own [operationId], copied unchanged, when the operation
    declares one (a truthy value); when it declares none (the field is
    missing or falsy), it is the identifier synthesized from method and
    path: the uppercased method, an underscore, and the path with every
    non-alphanumeric character replaced by an underscore.  Two synthesized
    identifiers are equal exactly when the methods are equal and the paths
    agree after that replacement; two declared identifiers are equal
    exactly when the documents' values are.  Nothing makes the identifiers
    of a catalog distinct. *)
Theorem operationId_declared_or_synthesized
    (path1 path2 method1 method2 : string) (op1 op2 e1 e2 : value) :
  In method1 methods -> In method2 methods ->
  makeEndpoint path1 method1 op1 = Ok e1 ->
  makeEndpoint path2 method2 op2 = Ok e2 ->
  (truthy (field op1 "operationId") = true ->
   field e1 "operationId" = field op1 "operationId")
  /\ (truthy (field op2 "operationId") = true ->
      field e2 "operationId" = field op2 "operationId")
  /\ (truthy (field op1 "operationId") = false ->
      field e1 "operationId"
      = VStr (toUpperCase method1 ++ "_" ++ replace_non_alnum path1))
  /\ (truthy (field op2 "operationId") = false ->
      field e2 "operationId"
      = VStr (toUpperCase method2 ++ "_" ++ replace_non_alnum path2))
  /\ (truthy (field op1 "operationId") = false ->
      truthy (field op2 "operationId") = false ->
      (field e1 "operationId" = field e2 "operationId"
       <-> method1 = method2
           /\ replace_non_alnum path1 = replace_non_alnum path2))
  /\ (truthy (field op1 "operationId") = true ->
      truthy (field op2 "operationId") = true ->
      (field e1 "operationId" = field e2 "operationId"
       <-> field op1 "operationId" = field op2 "operationId")).
Proof.
  intros Hm1 Hm2 H1 H2.
  assert (Hid1 : field e1 "operationId"
                 = if truthy (field op1 "operationId")
                   then field op1 "operationId"
                   else VStr (toUpperCase method1 ++ "_"
                              ++ replace_non_alnum path1)).
  { apply makeEndpoint_shape in H1. destruct H1 as (? & ? & ? & -> & _).
    reflexivity. }
  assert (Hid2 : field e2 "operationId"
                 = if truthy (field op2 "operationId")
                   then field op2 "operationId"
                   else VStr (toUpperCase method2 ++ "_"
                              ++ replace_non_alnum path2)).
  { apply makeEndpoint_shape in H2. destruct H2 as (? & ? & ? & -> & _).
    reflexivity. }
  rewrite Hid1, Hid2.
  split; [intros ->; reflexivity |].
  split; [intros ->; reflexivity |].
  split; [intros ->; reflexivity |].
  split; [intros ->; reflexivity |].
  split.
  - intros -> ->. split.
    + intros Heq. injection Heq as Heq.
      exact (synthesized_prefix_injective _ _ _ _ Hm1 Hm2 Heq).
    + intros [-> ->]. reflexivity.
  - intros -> ->. split; intros Heq; exact Heq.
Qed.

(** C1 at GET /user-profile, which declares its identifier, and POST
    /user-profile, which declares none. *)
Lemma operationId_declared_or_synthesized_witness :
  exists e1 e2,
    makeEndpoint "/user-profile" "get" named_operation = Ok e1
    /\ makeEndpoint "/user-profile" "post" bare_operation = Ok e2
    /\ field e1 "operationId" = VStr "getProfile"
    /\ field e2 "operationId" = VStr "POST__user_profile".
Proof.
  eexists. eexists. split; [reflexivity |]. split; [reflexivity |].
  pose proof (operationId_declared_or_synthesized
                "/user-profile" "/user-profile" "get" "post"
                named_operation bare_operation _ _
                (or_introl eq_refl) (or_intror (or_introl eq_refl))
                eq_refl eq_refl) as (H1 & _ & _ & H2 & _).
  split; [exact (H1 eq_refl) | exact (H2 eq_refl)].
Defined.

(** C1 as the specification states it fails: the GET operations of
    [/user-profile] and [/user_profile], neither declaring an
    [operationId], are distinct operations of one catalog and receive the
    same identifier [GET__user_profile]. *)
Lemma operationId_not_unique :
  exists e1 e2,
    extractEndpoints colliding_api = Ok [e1; e2]
    /\ path_and_method e1 = (VStr "/user-profile", VStr "GET")
    /\ path_and_method e2 = (VStr "/user_profile", VStr "GET")
    /\ path_and_method e1 <> path_and_method e2
    /\ field e1 "operationId" = VStr "GET__user_profile"
    /\ field e1 "operationId" = field e2 "operationId".
Proof.
  eexists. eexists. split; [reflexivity |].
  repeat split; discriminate.
Qed.

End CatalogFacts.

(** ** The parser's results: [parse], [extractParameters], [validate],
    [saveToFile] *)

Module ParseFacts.
Import JS.
Import Parser.
Import Terms.
Import ParserFacts.
Import Examples.
Local Open Scope js_scope.

(** C4.  The source notes the locations of a parameter as path, query,
    header, cookie, but [extractParameters] copies [param.in] without
    looking at it: the catalog of a Swagger 2.0 document has an endpoint
    whose parameter is located in [body], which is none of the four. *)
Lemma parameter_location_unchecked :
  exists e p,
    extractEndpoints swagger2_api = Ok [e]
    /\ field e "parameters" = VArr [p]
    /\ field p "in" = VStr "body"
    /\ ~ In (field p "in")
            [VStr "path"; VStr "query"; VStr "header"; VStr "cookie"].
Proof.
  eexists. eexists. split; [reflexivity |].
  split; [reflexivity |]. split; [reflexivity |].
  simpl. intros [H | [H | [H | [H | []]]]]; discriminate H.
Qed.

Lemma extractEndpoints_endpoint_records (api : value) (eps : list value) :
  extractEndpoints api = Ok eps ->
  Forall (fun e => keys e = Ok endpoint_keys) eps.
Proof.
  intros H. apply extractEndpoints_declared in H.
  destruct H as [[_ ->] | [_ (es & _ & Hall)]]; [constructor |].
  induction Hall as [| o e os eps' [_ He] _ IH]; constructor; [| exact IH].
  apply makeEndpoint_shape in He. destruct He as (? & ? & ? & -> & _).
  reflexivity.
Qed.

(** A successful [parse] went through [fs.access], the library's parse and
    [extractEndpoints], and returns the object literal of the source. *)
Lemma parse_shape (w : world) (filePath : string) (r : value) :
  parse w filePath = Ok r ->
  exists api eps,
    fs_access w filePath = Ok tt
    /\ swagger_parse w filePath = Ok api
    /\ extractEndpoints api = Ok eps
    /\ r = VObj [ ("info", or_else (field api "info") (VObj []));
                  ("servers", or_else (field api "servers") (VArr []));
                  ("endpoints", VArr eps);
                  ("security", or_else (field api "security") (VArr []));
                  ("components", or_else (field api "components") (VObj []));
                  ("raw", api) ].
Proof.
  unfold parse, rethrow. intros H.
  match type of H with
  | match ?c with _ => _ end = _ => destruct c as [r' | e] eqn:Hc
  end; [| discriminate H].
  inversion H; subst r'; clear H.
  bind_inv Hc.
  repeat match goal with
         | Hg : get _ _ = Ok _ |- _ => apply get_field in Hg; subst
         end.
  inversion Hc; subst; clear Hc.
  match goal with u : unit |- _ => destruct u end.
  eexists _, _. repeat split; eassumption.
Qed.

(** C2, as the parser implements it.  When [parse] succeeds it returns an
    object with the six fields info, servers, endpoints, security,
    components and raw, in this order: [endpoints] is the list of Endpoint
    records extracted from the document, [raw] is the parsed document
    itself, and info, servers, security and components are the document's
    values, replaced by the empty object (info, components) or the empty
    list (servers, security) when missing or falsy. *)
Theorem parse_result_fields (w : world) (filePath : string) (r : value) :
  parse w filePath = Ok r ->
  exists api eps,
    swagger_parse w filePath = Ok api
    /\ keys r = Ok ["info"; "servers"; "endpoints"; "security"; "components";
                    "raw"]
    /\ field r "endpoints" = VArr eps
    /\ extractEndpoints api = Ok eps
    /\ Forall (fun e => keys e = Ok endpoint_keys) eps
    /\ field r "raw" = api
    /\ field r "info" = or_else (field api "info") (VObj [])
    /\ field r "servers" = or_else (field api "servers") (VArr [])
    /\ field r "security" = or_else (field api "security") (VArr [])
    /\ field r "components" = or_else (field api "components") (VObj [])
    /\ (field api "info" = VUndefined -> field r "info" = VObj [])
    /\ (field api "servers" = VUndefined -> field r "servers" = VArr [])
    /\ (field api "security" = VUndefined -> field r "security" = VArr [])
    /\ (field api "components" = VUndefined -> field r "components" = VObj []).
Proof.
  intros H. apply parse_shape in H.
  destruct H as (api & eps & _ & Hapi & Heps & ->).
  exists api, eps.
  split; [exact Hapi |]. split; [reflexivity |]. split; [reflexivity |].
  split; [exact Heps |].
  split; [exact (extractEndpoints_endpoint_records _ _ Heps) |].
  repeat split; try reflexivity;
    intros Habsent; rewrite field_VObj; cbn [lookup String.eqb Ascii.eqb Bool.eqb];
    rewrite Habsent; reflexivity.
Qed.

(** C2 on a document that has only [paths]: all four defaults apply and
    [raw] holds the document. *)
Lemma parse_result_fields_witness :
  exists r,
    parse (world_of two_paths_api) "openapi.json" = Ok r
    /\ field r "info" = VObj []
    /\ field r "servers" = VArr []
    /\ field r "raw" = two_paths_api.
Proof.
  eexists. split; [reflexivity |].
  destruct (parse_result_fields (world_of two_paths_api) "openapi.json" _ eq_refl)
    as (api & eps & Hapi & _ & _ & _ & _ & Hraw & _ & _ & _ & _ & Hinfo & Hservers & _).
  injection Hapi as <-.
  split; [exact (Hinfo eq_refl) |]. split; [exact (Hservers eq_refl) | exact Hraw].
Defined.

(** C2 as the specification states it fails: the object that [parse]
    returns has a sixth field, [raw], besides info, servers, endpoints,
    security and components. *)
Lemma parse_result_has_raw :
  exists r,
    parse (world_of colliding_api) "openapi.json" = Ok r
    /\ keys r <> Ok ["info"; "servers"; "endpoints"; "security"; "components"]
    /\ In "raw" (match keys r with Ok ks => ks | Throw _ => [] end)
    /\ field r "raw" = colliding_api.
Proof.
  eexists. split; [reflexivity |].
  split; [discriminate |]. split; [| reflexivity].
  simpl. do 5 right. left. reflexivity.
Qed.

(** C9.  [validate] never throws: it returns a boolean, which is true
    exactly when the swagger-parser library parses the file and false when
    that parse fails. *)
Theorem validate_never_throws (w : world) (filePath : string) :
  exists b,
    validate w filePath = Ok b
    /\ (b = true <-> exists api, swagger_parse w filePath = Ok api)
    /\ (b = false <-> exists e, swagger_parse w filePath = Throw e).
Proof.
  unfold validate.
  destruct (swagger_parse w filePath) as [api | e].
  - exists true. split; [reflexivity |]. split; split.
    + intros _. exists api. reflexivity.
    + reflexivity.
    + discriminate.
    + intros [e H]. discriminate H.
  - exists false. split; [reflexivity |]. split; split.
    + discriminate.
    + intros [api H]. discriminate H.
    + intros _. exists e. reflexivity.
    + reflexivity.
Qed.

End ParseFacts.

(** ** Output formats of [saveToFile] *)

Module SaveFacts.
Import JS.
Import Parser.
Import Terms.
Import Examples.

Lemma fileContent_unsupported (w : world) (data : value) (format : string) :
  ~ In (toLowerCase format) supported_formats ->
  fileContent w data format = Throw (UnsupportedFormat format).
Proof.
  intros Hout. unfold fileContent.
  repeat match goal with
         | |- context [String.eqb (toLowerCase format) ?lit] =>
             destruct (String.eqb_spec (toLowerCase format) lit) as [Heq | _];
             [exfalso; apply Hout; rewrite Heq; simpl; tauto |]
         end.
  reflexivity.
Qed.

Lemma fileContent_lowercase (w : world) (data : value) (f g : string) :
  toLowerCase f = toLowerCase g ->
  In (toLowerCase f) supported_formats ->
  fileContent w data f = fileContent w data g.
Proof.
  intros Heq Hin. unfold fileContent. rewrite <- Heq.
  simpl in Hin.
  destruct Hin as [<- | [<- | [<- | [<- | []]]]]; reflexivity.
Qed.

(** C10.  [saveToFile] with format json and with format txt have the same
    outcome and leave the same files: when [JSON.stringify(data, null, 2)]
    gives a text and the file can be written, the file holds that text in
    both cases.  The format is matched after lowercasing, so two formats
    with the same lowercase form in json, yaml, txt, csv behave alike; a
    format whose lowercase form is none of these makes [saveToFile] throw
    and leaves the files as they were. *)
Theorem saveToFile_formats (w : world) (data : value) (outputPath : string)
    (fs : files) :
  saveToFile w data outputPath (Some "json") fs
  = saveToFile w data outputPath (Some "txt") fs
  /\ (forall content,
        JSON_stringify w data 2 = Some content ->
        fs_writeFile_check w outputPath = Ok tt ->
        saveToFile w data outputPath (Some "json") fs
        = (Ok tt, (outputPath, content) :: fs)
        /\ saveToFile w data outputPath (Some "txt") fs
           = (Ok tt, (outputPath, content) :: fs))
  /\ (forall f g,
        toLowerCase f = toLowerCase g ->
        In (toLowerCase f) ["json"; "yaml"; "txt"; "csv"] ->
        saveToFile w data outputPath (Some f) fs
        = saveToFile w data outputPath (Some g) fs)
  /\ (forall f,
        ~ In (toLowerCase f) ["json"; "yaml"; "txt"; "csv"] ->
        saveToFile w data outputPath (Some f) fs
        = (Throw (SaveFailed (UnsupportedFormat f)), fs)).
Proof.
  split; [reflexivity |]. split; [| split].
  - intros content Hjson Hwrite.
    unfold saveToFile, fileContent, writeFile. cbn.
    rewrite Hjson, Hwrite. split; reflexivity.
  - intros f g Heq Hin. unfold saveToFile.
    rewrite (fileContent_lowercase w data f g Heq Hin). reflexivity.
  - intros f Hout. unfold saveToFile.
    rewrite (fileContent_unsupported w data f Hout). reflexivity.
Qed.

(** C10 with the formats [TXT] and [json], and with [table], the default
    format of the [parse] command, which is not supported. *)
Lemma saveToFile_formats_witness :
  saveToFile (world_of bare_operation) (VObj []) "out" (Some "TXT") []
  = saveToFile (world_of bare_operation) (VObj []) "out" (Some "json") []
  /\ saveToFile (world_of bare_operation) (VObj []) "out" (Some "json") []
     = (Ok tt, [("out", "{}")])
  /\ saveToFile (world_of bare_operation) (VObj []) "out" (Some "table") []
     = (Throw (SaveFailed (UnsupportedFormat "table")), []).
Proof.
  pose proof (saveToFile_formats (world_of bare_operation) (VObj []) "out" [])
    as (Hsame & Hjson & Hcase & Hout).
  split; [| split].
  - rewrite Hsame.
    apply (Hcase "TXT" "txt" eq_refl). simpl. tauto.
  - exact (proj1 (Hjson "{}" eq_refl eq_refl)).
  - apply Hout. simpl.
    intros [H | [H | [H | [H | []]]]]; discriminate H.
Defined.

End SaveFacts.

(** ** Runs of the command-line driver *)

Module CliFacts.
Import JS.
Import Parser.
Import Terms.
Import ParserFacts.
Import ParseFacts.
Import Cli.
Import Examples.

Lemma ingestion_fails_parse (w : world) (file : string) :
  ingestion_fails w file -> exists e, parse w file = Throw (ParseFailed e).
Proof.
  unfold parse, rethrow, bind.
  intros [[e H] | [[e H] | (api & e & Hapi & H)]].
  - rewrite H. exists e. reflexivity.
  - destruct (fs_access w file) as [u | e'].
    + rewrite H. exists e. reflexivity.
    + exists e'. reflexivity.
  - destruct (fs_access w file) as [u | e'].
    + rewrite Hapi, H. exists e. reflexivity.
    + exists e'. reflexivity.
Qed.

(** C3.  When ingestion fails, [parse] throws (it returns no catalog, not
    even a partial one), and a [test] or [scan] run prints the failure and
    exits with status 1 straight after its first console line: no tester is
    constructed and no test is run. *)
Theorem parse_failure_aborts (w : world) (c : collaborators) (file : string) :
  ingestion_fails w file ->
  exists e,
    parse w file = Throw (ParseFailed e)
    /\ (forall options s,
          test_action w c file options s
          = {| trace := trace s ++ [ ConsoleLog MsgParsing;
                                     ConsoleError (MsgTestFailed (ParseFailed e));
                                     Exit 1 ];
               disk := disk s |})
    /\ (forall options s,
          scan_action w c file options s
          = {| trace := trace s ++ [ ConsoleLog MsgScanning;
                                     ConsoleError (MsgScanFailed (ParseFailed e));
                                     Exit 1 ];
               disk := disk s |})
    /\ (forall options,
          configs_used (trace (test_action w c file options initial)) = [])
    /\ (forall options,
          configs_used (trace (scan_action w c file options initial)) = []).
Proof.
  intros Hfail. destruct (ingestion_fails_parse w file Hfail) as [e He].
  exists e. split; [exact He |].
  assert (Htest : forall options s,
             test_action w c file options s
             = {| trace := trace s ++ [ ConsoleLog MsgParsing;
                                        ConsoleError (MsgTestFailed (ParseFailed e));
                                        Exit 1 ];
                  disk := disk s |}).
  { intros options s. unfold test_action, guarded, cbind, emit, lift.
    rewrite He. cbn [trace disk]. rewrite <- app_assoc. reflexivity. }
  assert (Hscan : forall options s,
             scan_action w c file options s
             = {| trace := trace s ++ [ ConsoleLog MsgScanning;
                                        ConsoleError (MsgScanFailed (ParseFailed e));
                                        Exit 1 ];
                  disk := disk s |}).
  { intros options s. unfold scan_action, guarded, cbind, emit, lift.
    rewrite He. cbn [trace disk]. rewrite <- app_assoc. reflexivity. }
  split; [exact Htest |]. split; [exact Hscan |]. split.
  - intros options. rewrite Htest. reflexivity.
  - intros options. rewrite Hscan. reflexivity.
Qed.

(** C3 for a file that does not exist. *)
Lemma parse_failure_aborts_witness :
  parse empty_world "missing.json" = Throw (ParseFailed (Rejected "ENOENT"))
  /\ test_action empty_world quiet "missing.json" no_test_options initial
     = {| trace := [ ConsoleLog MsgParsing;
                     ConsoleError (MsgTestFailed (ParseFailed (Rejected "ENOENT")));
                     Exit 1 ];
          disk := [] |}.
Proof.
  destruct (parse_failure_aborts empty_world quiet "missing.json"
              (or_introl (ex_intro _ (Rejected "ENOENT") eq_refl)))
    as (e & He & Htest & _).
  injection He as <-.
  split; [reflexivity |].
  exact (Htest no_test_options initial).
Defined.

(** The console line that reports the number of endpoints of a parsed
    document gets the length of its endpoint list. *)
Lemma parsed_count (w : world) (file : string) (data : value) :
  parse w file = Ok data ->
  exists eps,
    get data "endpoints" = Ok (VArr eps)
    /\ get (VArr eps) "length" = Ok (VNum (Z.of_nat (List.length eps))).
Proof.
  intros H. apply parse_shape in H.
  destruct H as (api & eps & _ & _ & _ & ->).
  exists eps. split; reflexivity.
Qed.

(** Every tester of a [test] run is configured by [test_config]. *)
Lemma test_action_configs (w : world) (c : collaborators) (file : string)
    (options : test_options) :
  Forall (fun cfg => cfg = test_config options)
         (configs_used (trace (test_action w c file options initial))).
Proof.
  unfold test_action, guarded, call, cbind, emit, lift.
  destruct (parse w file) as [data | e]; cbn [trace disk initial app];
    [| repeat constructor].
  destruct (tester_new c (test_config options)); cbn [trace disk app];
    [| repeat constructor].
  destruct (tester_runTests c (test_config options) data) as [results | e];
    cbn [trace disk app]; [| repeat constructor].
  destruct (reporter_new c); cbn [trace disk app]; [| repeat constructor].
  destruct (given_nonempty (test_report options)); cbn [trace disk app].
  - destruct (reporter_saveReport c results _); cbn [trace disk app];
      repeat constructor.
  - destruct (reporter_printTestResults c results); cbn [trace disk app];
      repeat constructor.
Qed.

(** Every tester of a [scan] run has the fixed timeout of [scan_config]. *)
Lemma scan_action_configs (w : world) (c : collaborators) (file : string)
    (options : scan_options) :
  Forall (fun cfg => timeout cfg = Exact 5000)
         (configs_used (trace (scan_action w c file options initial))).
Proof.
  unfold scan_action, guarded, call, cbind, emit, lift.
  destruct (parse w file) as [data | e] eqn:Hparse; cbn [trace disk initial app];
    [| repeat constructor].
  destruct (parsed_count _ _ _ Hparse) as (eps & -> & ->).
  cbn [trace disk app].
  destruct (given_nonempty (scan_baseUrl options)); cbn [trace disk app];
    [| repeat constructor].
  destruct (tester_new c _); cbn [trace disk app]; [| repeat constructor].
  destruct (tester_runTests c _ data) as [results | e];
    cbn [trace disk app]; [| repeat constructor].
  destruct (reporter_new c); cbn [trace disk app]; [| repeat constructor].
  destruct (reporter_saveReport c results _); cbn [trace disk app];
    repeat constructor.
Qed.

(** After a successful parse a [test] run constructs its tester, whatever
    the options are. *)
Lemma test_action_starts_tester (w : world) (c : collaborators) (file : string)
    (options : test_options) (data : value) (s : state) :
  parse w file = Ok data ->
  exists rest,
    trace (test_action w c file options s)
    = trace s ++ [ ConsoleLog MsgParsing; ConsoleLog MsgTesting;
                   NewTester (test_config options) ] ++ rest.
Proof.
  intros Hparse.
  unfold test_action, guarded, call, cbind, emit, lift.
  rewrite Hparse. cbn [trace disk].
  destruct (tester_new c (test_config options)); cbn [trace disk].
  - destruct (tester_runTests c (test_config options) data) as [results | e];
      cbn [trace disk].
    + destruct (reporter_new c); cbn [trace disk];
        [| eexists; repeat rewrite <- app_assoc; cbn [app]; reflexivity].
      destruct (given_nonempty (test_report options)); cbn [trace disk].
      * destruct (reporter_saveReport c results _); cbn [trace disk];
          eexists; repeat rewrite <- app_assoc; cbn [app]; reflexivity.
      * destruct (reporter_printTestResults c results); cbn [trace disk];
          eexists; repeat rewrite <- app_assoc; cbn [app]; reflexivity.
    + eexists; repeat rewrite <- app_assoc; cbn [app]; reflexivity.
  - eexists; repeat rewrite <- app_assoc; cbn [app]; reflexivity.
Qed.

(** C5, as the driver implements it.  In a [scan] run with no base URL
    (the option absent or empty) and a document that parses, the driver
    constructs no tester and runs no test: it prints the number of
    endpoints, a warning that security testing is skipped and a hint, and
    ends without an error line and without exiting with a failure status.
    In a [test] run the driver hands the base URL to the security tester as
    it is, given or not, and constructs the tester. *)
Theorem missing_baseUrl_in_driver (w : world) (c : collaborators)
    (file : string) (data : value) :
  parse w file = Ok data ->
  (forall options s,
     given_nonempty (scan_baseUrl options) = false ->
     exists count,
       scan_action w c file options s
       = {| trace := trace s ++ [ ConsoleLog MsgScanning;
                                  ConsoleLog (MsgParsed (VNum count));
                                  ConsoleLog MsgNoBaseUrl;
                                  ConsoleLog MsgBaseUrlHint ];
            disk := disk s |})
  /\ (forall options s,
        baseUrl (test_config options) = test_baseUrl options
        /\ exists rest,
             trace (test_action w c file options s)
             = trace s ++ [ ConsoleLog MsgParsing; ConsoleLog MsgTesting;
                            NewTester (test_config options) ] ++ rest).
Proof.
  intros Hparse. split.
  - intros options s Hnone.
    destruct (parsed_count _ _ _ Hparse) as (eps & Heps & Hlen).
    exists (Z.of_nat (List.length eps)).
    unfold scan_action, guarded, cbind, emit, lift.
    rewrite Hparse. cbn [trace disk]. rewrite Heps, Hlen, Hnone.
    cbn [trace disk]. repeat rewrite <- app_assoc. reflexivity.
  - intros options s. split; [reflexivity |].
    exact (test_action_starts_tester w c file options data s Hparse).
Qed.

(** C5 on a scan of a document with two endpoints and no option given. *)
Lemma missing_baseUrl_in_driver_witness :
  exists count,
    scan_action (world_of colliding_api) quiet "openapi.json" no_scan_options
                initial
    = {| trace := [ ConsoleLog MsgScanning;
                    ConsoleLog (MsgParsed (VNum count));
                    ConsoleLog MsgNoBaseUrl;
                    ConsoleLog MsgBaseUrlHint ];
         disk := [] |}.
Proof.
  exact (proj1 (missing_baseUrl_in_driver (world_of colliding_api) quiet
                  "openapi.json" _ eq_refl)
               no_scan_options initial eq_refl).
Defined.

(** C5 as the specification states it fails: a [scan] run without a base
    URL raises no error and does not abort; it skips the test phase after a
    successful parse and ends normally. *)
Lemma scan_without_baseUrl_skips_tests :
  let final := scan_action (world_of colliding_api) quiet "openapi.json"
                           no_scan_options initial in
  trace final = [ ConsoleLog MsgScanning;
                  ConsoleLog (MsgParsed (VNum 2));
                  ConsoleLog MsgNoBaseUrl;
                  ConsoleLog MsgBaseUrlHint ]
  /\ (forall m, ~ In (ConsoleError m) (trace final))
  /\ (forall code, ~ In (Exit code) (trace final))
  /\ configs_used (trace final) = [].
Proof.
  cbv zeta. split; [reflexivity |]. split; [| split; [| reflexivity]].
  - intros m. simpl. intros [H | [H | [H | [H | []]]]]; discriminate H.
  - intros code. simpl. intros [H | [H | [H | [H | []]]]]; discriminate H.
Qed.

(** After a successful parse a [scan] run with a non-empty base URL
    constructs its tester, with the fixed configuration of the command. *)
Lemma scan_action_starts_tester (w : world) (c : collaborators) (file : string)
    (options : scan_options) (data : value) (url : string) (s : state) :
  parse w file = Ok data ->
  scan_baseUrl options = Some url -> url <> "" ->
  exists count rest,
    trace (scan_action w c file options s)
    = trace s ++ [ ConsoleLog MsgScanning; ConsoleLog (MsgParsed count);
                   ConsoleLog MsgTesting; NewTester (scan_config url) ] ++ rest.
Proof.
  intros Hparse Hurl Hnonempty.
  destruct (parsed_count _ _ _ Hparse) as (eps & Heps & Hlen).
  exists (VNum (Z.of_nat (List.length eps))).
  unfold scan_action, guarded, call, cbind, emit, lift.
  rewrite Hparse. cbn [trace disk]. rewrite Heps, Hlen, Hurl.
  cbn [given_nonempty with_default].
  apply String.eqb_neq in Hnonempty. rewrite Hnonempty. cbn [negb trace disk].
  destruct (tester_new c (scan_config url)); cbn [trace disk].
  - destruct (tester_runTests c (scan_config url) data) as [results | e];
      cbn [trace disk].
    + destruct (reporter_new c); cbn [trace disk];
        [| eexists; repeat rewrite <- app_assoc; cbn [app]; reflexivity].
      destruct (reporter_saveReport c results _); cbn [trace disk];
        eexists; repeat rewrite <- app_assoc; cbn [app]; reflexivity.
    + eexists; repeat rewrite <- app_assoc; cbn [app]; reflexivity.
  - eexists; repeat rewrite <- app_assoc; cbn [app]; reflexivity.
Qed.

(** C6.  When the user gives no [--timeout], the configuration of the
    [test] command has timeout 5000, and so has every tester that a [test]
    run constructs or runs; after a successful parse the [test] run does
    construct its tester.  A [scan] run has no timeout option: its
    configuration always has timeout 5000, so has every tester that a
    [scan] run constructs or runs, and after a successful parse a [scan]
    run with a non-empty base URL does construct its tester, with timeout
    5000. *)
Theorem default_timeout_is_5000 (w : world) (c : collaborators) (file : string) :
  (forall options,
     test_timeout options = None ->
     timeout (test_config options) = Exact 5000
     /\ Forall (fun cfg => timeout cfg = Exact 5000)
               (configs_used (trace (test_action w c file options initial)))
     /\ (forall data,
           parse w file = Ok data ->
           In (test_config options)
              (configs_used (trace (test_action w c file options initial)))))
  /\ (forall url, timeout (scan_config url) = Exact 5000)
  /\ (forall options,
        Forall (fun cfg => timeout cfg = Exact 5000)
               (configs_used (trace (scan_action w c file options initial))))
  /\ (forall options data url,
        parse w file = Ok data ->
        scan_baseUrl options = Some url -> url <> "" ->
        In (NewTester {| baseUrl := Some url; timeout := Exact 5000;
                         sslVerify := true |})
           (trace (scan_action w c file options initial))
        /\ In (scan_config url)
              (configs_used (trace (scan_action w c file options initial)))).
Proof.
  split; [| split; [| split]].
  - intros options Hnone.
    assert (Hcfg : timeout (test_config options) = Exact 5000).
    { unfold test_config. rewrite Hnone. reflexivity. }
    split; [exact Hcfg |]. split.
    + eapply Forall_impl; [| exact (test_action_configs w c file options)].
      intros cfg ->. exact Hcfg.
    + intros data Hparse.
      destruct (test_action_starts_tester w c file options data initial Hparse)
        as (rest & ->).
      cbn. left. reflexivity.
  - intros url. reflexivity.
  - intros options. exact (scan_action_configs w c file options).
  - intros options data url Hparse Hurl Hnonempty.
    destruct (scan_action_starts_tester w c file options data url initial
                Hparse Hurl Hnonempty) as (count & rest & ->).
    split.
    + cbn. do 3 right. left. reflexivity.
    + cbn. left. reflexivity.
Qed.

(** C6 on a [test] run with no option given and on a [scan] run with a
    base URL. *)
Lemma default_timeout_is_5000_witness :
  timeout (test_config no_test_options) = Exact 5000
  /\ In {| baseUrl := None; timeout := Exact 5000; sslVerify := true |}
        (configs_used
           (trace (test_action (world_of colliding_api) quiet "openapi.json"
                               no_test_options initial)))
  /\ In (NewTester {| baseUrl := Some "http://localhost:3000";
                      timeout := Exact 5000; sslVerify := true |})
        (trace (scan_action (world_of colliding_api) quiet "openapi.json"
                            local_scan_options initial)).
Proof.
  destruct (default_timeout_is_5000 (world_of colliding_api) quiet
              "openapi.json") as (Htest & _ & _ & Hscan).
  destruct (Htest no_test_options eq_refl) as (Hcfg & _ & Hin).
  split; [exact Hcfg |]. split; [exact (Hin _ eq_refl) |].
  refine (proj1 (Hscan local_scan_options _ "http://localhost:3000"
                       eq_refl eq_refl _)).
  discriminate.
Defined.

End CliFacts.

(** ** When extraction succeeds and when it throws *)

Module ExtractionFacts.
Import JS.
Import Parser.
Import Terms.
Import ParserFacts.
Import Examples.
Local Open Scope js_scope.

Lemma get_non_nullish (v : value) (k : string) :
  nullish v = false -> get v k = Ok (field v k).
Proof.
  intros Hv. unfold field.
  destruct v; try discriminate Hv; simpl;
    repeat match goal with
           | |- context [if ?b then _ else _] => destruct b
           | |- context [match index_of_string ?x with _ => _ end] =>
               destruct (index_of_string x)
           end; reflexivity.
Qed.

Lemma get_nullish (v : value) (k : string) :
  nullish v = true -> get v k = Throw (TypeError k).
Proof. destruct v; try discriminate; reflexivity. Qed.

Lemma truthy_non_nullish (v : value) : truthy v = true -> nullish v = false.
Proof. destruct v; try discriminate; reflexivity. Qed.

Lemma mapM_all_Ok {A B} (f : A -> result B) (g : A -> B) :
  forall l : list A,
    (forall x, In x l -> f x = Ok (g x)) -> mapM f l = Ok (map g l).
Proof.
  induction l as [| x l IH]; intros H; simpl; [reflexivity |].
  rewrite (H x (or_introl eq_refl)). simpl.
  rewrite IH; [reflexivity |]. intros y Hy. apply H. right. exact Hy.
Qed.

Lemma mapM_Throw {A B} (f : A -> result B) :
  forall (l : list A) (x : A),
    In x l -> (exists e, f x = Throw e) -> exists e, mapM f l = Throw e.
Proof.
  induction l as [| y l IH]; intros x Hin [e He]; [contradiction |].
  simpl. destruct Hin as [-> | Hin].
  - rewrite He. exists e. reflexivity.
  - destruct (f y) as [b | e']; simpl; [| exists e'; reflexivity].
    destruct (IH x Hin (ex_intro _ e He)) as [e'' ->].
    exists e''. reflexivity.
Qed.

(** A loop succeeds when every step succeeds from every state. *)
Lemma foldM_all_Ok {A S} (body : S -> A -> result S) :
  forall l : list A,
    (forall s x, In x l -> exists s', body s x = Ok s') ->
    forall s, exists s', foldM body l s = Ok s'.
Proof.
  induction l as [| x l IH]; intros H s; simpl.
  - exists s. reflexivity.
  - destruct (H s x (or_introl eq_refl)) as [s1 ->]. simpl.
    apply IH. intros s2 y Hy. apply H. right. exact Hy.
Qed.

(** A loop throws when one of its steps throws from every state. *)
Lemma foldM_Throw_in {A S} (body : S -> A -> result S) :
  forall (l : list A) (x : A),
    In x l -> (forall s, exists e, body s x = Throw e) ->
    forall s, exists e, foldM body l s = Throw e.
Proof.
  induction l as [| y l IH]; intros x Hin Hx s; [contradiction |].
  simpl. destruct Hin as [-> | Hin].
  - destruct (Hx s) as [e ->]. exists e. reflexivity.
  - destruct (body s y) as [s1 | e]; simpl; [| exists e; reflexivity].
    exact (IH x Hin Hx s1).
Qed.

Lemma extractRequestBody_value (requestBody : value) :
  extractRequestBody requestBody
  = Ok (if truthy requestBody then request_body_record requestBody else VNull).
Proof.
  unfold extractRequestBody.
  destruct (truthy requestBody) eqn:Ht; simpl; [| reflexivity].
  rewrite !(get_non_nullish requestBody) by exact (truthy_non_nullish _ Ht).
  reflexivity.
Qed.

Lemma extractParameter_value (p : value) :
  nullish p = false -> extractParameter p = Ok (parameter_record p).
Proof.
  intros Hp. unfold extractParameter.
  rewrite !(get_non_nullish p) by exact Hp. reflexivity.
Qed.

Lemma extractParameter_nullish (p : value) :
  nullish p = true -> exists e, extractParameter p = Throw e.
Proof.
  intros Hp. unfold extractParameter.
  rewrite (get_nullish p "name" Hp). eexists. reflexivity.
Qed.

Lemma extractParameters_when_ok (parameters : value) :
  parameters_ok parameters = true ->
  exists items,
    parameters = VArr items
    /\ extractParameters parameters = Ok (VArr (map parameter_record items)).
Proof.
  destruct parameters as [| | b | n | s | items | fs]; try discriminate.
  simpl. intros Hall. exists items. split; [reflexivity |].
  rewrite (mapM_all_Ok extractParameter parameter_record); [reflexivity |].
  intros p Hp. apply extractParameter_value.
  rewrite forallb_forall in Hall. apply negb_true_iff. exact (Hall p Hp).
Qed.

Lemma extractParameters_when_not_ok (parameters : value) :
  parameters_ok parameters = false ->
  exists e, extractParameters parameters = Throw e.
Proof.
  destruct parameters as [| | b | n | s | items | fs];
    try (intros _; eexists; reflexivity).
  simpl. intros Hall.
  assert (Hbad : exists p, In p items /\ nullish p = true).
  { induction items as [| p items IH]; [discriminate Hall |].
    simpl in Hall. destruct (nullish p) eqn:Hp.
    - exists p. split; [left; reflexivity | exact Hp].
    - destruct (IH Hall) as (q & Hq & Hnull).
      exists q. split; [right; exact Hq | exact Hnull]. }
  destruct Hbad as (p & Hp & Hnull).
  destruct (mapM_Throw extractParameter items p Hp
              (extractParameter_nullish p Hnull)) as [e He].
  rewrite He. exists e. reflexivity.
Qed.

(** X1.  [extractParameters] succeeds exactly on an array none of whose
    elements is [null] or [undefined]; it then returns one record for each
    parameter, in the same order.  On every other argument (an object, a
    string, an array with a [null] element) it throws. *)
Theorem extractParameters_succeeds_iff (parameters : value) :
  ((exists ps, extractParameters parameters = Ok ps)
   <-> parameters_ok parameters = true)
  /\ (forall ps,
        extractParameters parameters = Ok ps ->
        exists items,
          parameters = VArr items /\ ps = VArr (map parameter_record items)).
Proof.
  split; [split |].
  - intros [ps Hps]. destruct (parameters_ok parameters) eqn:Hok; [reflexivity |].
    destruct (extractParameters_when_not_ok _ Hok) as [e He].
    rewrite He in Hps. discriminate Hps.
  - intros Hok. destruct (extractParameters_when_ok _ Hok) as (items & _ & H).
    eexists. exact H.
  - intros ps Hps. destruct (parameters_ok parameters) eqn:Hok.
    + destruct (extractParameters_when_ok _ Hok) as (items & Hitems & H).
      rewrite H in Hps. injection Hps as <-. exists items. split; auto.
    + destruct (extractParameters_when_not_ok _ Hok) as [e He].
      rewrite He in Hps. discriminate Hps.
Qed.

(** X1 on a list with one parameter, and on a parameter map given in
    place of a list. *)
Lemma extractParameters_succeeds_iff_witness :
  extractParameters (VArr [body_parameter])
  = Ok (VArr [parameter_record body_parameter])
  /\ ~ (exists ps, extractParameters (VObj [("pet", body_parameter)]) = Ok ps).
Proof.
  split.
  - destruct (proj2 (extractParameters_succeeds_iff (VArr [body_parameter]))
                _ eq_refl) as (items & Hitems & _).
    injection Hitems as <-. reflexivity.
  - intros H.
    apply (proj1 (proj1 (extractParameters_succeeds_iff
                           (VObj [("pet", body_parameter)])))) in H.
    discriminate H.
Defined.

(** X2.  [extractRequestBody] never throws: it returns [null] for a
    missing or falsy request body and otherwise a record with the three
    fields required, description and content, where a missing or falsy
    required is false, description the empty string and content the empty
    object. *)
Theorem extractRequestBody_total (requestBody : value) :
  exists r,
    extractRequestBody requestBody = Ok r
    /\ (r = VNull <-> truthy requestBody = false)
    /\ (truthy requestBody = true ->
        keys r = Ok ["required"; "description"; "content"]
        /\ field r "required" = or_else (field requestBody "required") (VBool false)
        /\ field r "description"
           = or_else (field requestBody "description") (VStr "")
        /\ field r "content" = or_else (field requestBody "content") (VObj [])).
Proof.
  eexists. split; [apply extractRequestBody_value |].
  destruct (truthy requestBody); split.
  - split; discriminate.
  - intros _. repeat split.
  - split; reflexivity.
  - discriminate.
Qed.

(** X2 on a request body that declares only its content. *)
Lemma extractRequestBody_total_witness :
  exists r,
    extractRequestBody (VObj [("content", VObj [("application/json", VObj [])])])
    = Ok r
    /\ field r "required" = VBool false
    /\ field r "content" = VObj [("application/json", VObj [])].
Proof.
  destruct (extractRequestBody_total
              (VObj [("content", VObj [("application/json", VObj [])])]))
    as (r & Hr & _ & Hfields).
  exists r. split; [exact Hr |].
  destruct (Hfields eq_refl) as (_ & Hreq & _ & Hcontent).
  split; [exact Hreq | exact Hcontent].
Defined.

Lemma own_set_fresh (fs : list (string * value)) (k : string) (v : value) :
  ~ In k (map fst fs) -> own_set fs k v = fs ++ [(k, v)].
Proof.
  induction fs as [| [k' v'] fs IH]; simpl; intros Hfresh; [reflexivity |].
  destruct (String.eqb_spec k' k) as [-> | _].
  - exfalso. apply Hfresh. left. reflexivity.
  - rewrite IH; [reflexivity |]. intros Hin. apply Hfresh. right. exact Hin.
Qed.

Lemma has_key_fresh (fs : list (string * value)) (k : string) :
  ~ In k (map fst fs) -> has_key k fs = false.
Proof.
  induction fs as [| [k' v'] fs IH]; simpl; intros Hfresh; [reflexivity |].
  destruct (String.eqb_spec k' k) as [-> | _].
  - exfalso. apply Hfresh. left. reflexivity.
  - apply IH. intros Hin. apply Hfresh. right. exact Hin.
Qed.

(** An assignment to a new key other than [__proto__] appends the
    property. *)
Lemma obj_set_fresh (fs : list (string * value)) (k : string) (v : value) :
  k <> "__proto__" -> ~ In k (map fst fs) -> obj_set fs k v = fs ++ [(k, v)].
Proof.
  intros Hk Hfresh. unfold obj_set.
  apply String.eqb_neq in Hk. rewrite Hk. cbn [andb].
  apply own_set_fresh. exact Hfresh.
Qed.

(** An assignment to [__proto__] adds no property to an object that has
    none of that name. *)
Lemma obj_set_proto (fs : list (string * value)) (v : value) :
  ~ In "__proto__" (map fst fs) -> obj_set fs "__proto__" v = fs.
Proof.
  intros Hfresh. unfold obj_set.
  rewrite (has_key_fresh fs "__proto__" Hfresh). reflexivity.
Qed.

Lemma forallb_false_exists {A} (f : A -> bool) (l : list A) :
  forallb f l = false -> exists x, In x l /\ f x = false.
Proof.
  induction l as [| x l IH]; [discriminate |].
  simpl. destruct (f x) eqn:Hx; simpl; intros H.
  - destruct (IH H) as (y & Hy & Hfy). exists y. split; [right |]; assumption.
  - exists x. split; [left; reflexivity | exact Hx].
Qed.

Lemma extractResponse_value (acc : list (string * value)) (entry : string * value) :
  nullish (snd entry) = false ->
  extractResponse acc entry
  = Ok (obj_set acc (fst entry) (response_record (snd entry))).
Proof.
  destruct entry as [code response]. simpl. intros Hr.
  rewrite !(get_non_nullish response) by exact Hr. reflexivity.
Qed.

Lemma extractResponse_nullish (acc : list (string * value)) (entry : string * value) :
  nullish (snd entry) = true -> exists e, extractResponse acc entry = Throw e.
Proof.
  destruct entry as [code response]. simpl. intros Hr.
  rewrite (get_nullish response "description" Hr). eexists. reflexivity.
Qed.

(** The responses object under construction after the loop over [es]. *)
Lemma response_loop_value :
  forall (es : list (string * value)) (acc : list (string * value)),
    forallb (fun e => negb (nullish (snd e))) es = true ->
    foldM extractResponse es acc
    = Ok (fold_left (fun a e => obj_set a (fst e) (response_record (snd e)))
                    es acc).
Proof.
  induction es as [| e es IH]; intros acc Hall; [reflexivity |].
  simpl in Hall. apply andb_true_iff in Hall. destruct Hall as [He Hall].
  apply negb_true_iff in He.
  simpl. rewrite (extractResponse_value acc e He). simpl.
  apply IH. exact Hall.
Qed.

Lemma response_loop_fresh :
  forall (es acc : list (string * value)),
    NoDup (map fst es) ->
    (forall k, In k (map fst es) -> ~ In k (map fst acc)) ->
    ~ In "__proto__" (map fst acc) ->
    fold_left (fun a e => obj_set a (fst e) (response_record (snd e))) es acc
    = acc ++ map (fun e => (fst e, response_record (snd e)))
                 (filter (fun e => negb (fst e =? "__proto__")) es).
Proof.
  induction es as [| [k r] es IH]; intros acc Hnd Hfresh Hproto.
  - simpl. rewrite app_nil_r. reflexivity.
  - inversion Hnd as [| ? ? Hk Hnd']; subst.
    cbn [fold_left filter fst snd].
    destruct (String.eqb_spec k "__proto__") as [-> | Hnot]; cbn [negb].
    + rewrite (obj_set_proto acc _ Hproto).
      apply IH; [exact Hnd' | | exact Hproto].
      intros k' Hk'. apply Hfresh. right. exact Hk'.
    + rewrite (obj_set_fresh acc k _ Hnot) by (apply Hfresh; left; reflexivity).
      rewrite IH; [cbn [map fst snd]; rewrite <- app_assoc; reflexivity
                  | exact Hnd' | |].
      * intros k' Hk' Hin. rewrite map_app in Hin. apply in_app_or in Hin.
        destruct Hin as [Hin | [<- | []]].
        -- apply (Hfresh k'); [right; exact Hk' | exact Hin].
        -- apply Hk. exact Hk'.
      * intros Hin. rewrite map_app in Hin. apply in_app_or in Hin.
        destruct Hin as [Hin | [Heq | []]].
        -- exact (Hproto Hin).
        -- apply Hnot. exact Heq.
Qed.

Lemma extractResponses_when_ok (responses : value) :
  responses_ok responses = true -> exists r, extractResponses responses = Ok r.
Proof.
  unfold responses_ok, extractResponses.
  destruct (entries responses) as [es | e]; [| discriminate].
  intros Hall. simpl. rewrite (response_loop_value es [] Hall).
  eexists. reflexivity.
Qed.

Lemma extractResponses_when_not_ok (responses : value) :
  responses_ok responses = false -> exists e, extractResponses responses = Throw e.
Proof.
  unfold responses_ok, extractResponses.
  destruct (entries responses) as [es | e]; [| intros _; exists e; reflexivity].
  intros Hall. simpl.
  destruct (forallb_false_exists _ _ Hall) as (bad & Hin & Hbad).
  apply negb_false_iff in Hbad.
  destruct (foldM_Throw_in extractResponse es bad Hin
              (fun acc => extractResponse_nullish acc bad Hbad) [])
    as [e ->].
  exists e. reflexivity.
Qed.

(** X3.  [extractResponses] succeeds exactly when [responses] is neither
    [null] nor [undefined] and none of its entries is.  For a responses
    object (whose codes are distinct) the result has the same codes in the
    same order, each with a record of the three fields description,
    content and headers, the missing ones defaulted; only a code
    [__proto__] is left out, because assigning to that name creates no
    property. *)
Theorem extractResponses_keeps_codes (responses : value) :
  ((exists r, extractResponses responses = Ok r)
   <-> responses_ok responses = true)
  /\ (forall fs,
        responses = VObj fs ->
        NoDup (map fst fs) ->
        responses_ok responses = true ->
        extractResponses responses
        = Ok (VObj (map (fun e => (fst e, response_record (snd e)))
                        (filter (fun e => negb (fst e =? "__proto__")) fs)))).
Proof.
  split; [split |].
  - intros [r Hr]. destruct (responses_ok responses) eqn:Hok; [reflexivity |].
    destruct (extractResponses_when_not_ok _ Hok) as [e He].
    rewrite He in Hr. discriminate Hr.
  - apply extractResponses_when_ok.
  - intros fs -> Hnd Hok. unfold responses_ok in Hok. simpl in Hok.
    unfold extractResponses. simpl.
    rewrite (response_loop_value fs [] Hok). simpl.
    rewrite (response_loop_fresh fs [] Hnd); [reflexivity | | intros []].
    intros k _ [].
Qed.

(** X3 on the responses 200, [__proto__] and default, the last without
    description. *)
Lemma extractResponses_keeps_codes_witness :
  extractResponses (VObj declared_responses)
  = Ok (VObj [ ("200", VObj [ ("description", VStr "ok");
                              ("content", VObj []); ("headers", VObj []) ]);
               ("default", VObj [ ("description", VStr "");
                                  ("content", VObj []); ("headers", VObj []) ]) ]).
Proof.
  refine (proj2 (extractResponses_keeps_codes (VObj declared_responses))
                declared_responses eq_refl _ eq_refl).
  unfold declared_responses. cbn [map fst].
  repeat (constructor; [simpl; intuition discriminate |]). constructor.
Defined.

Lemma makeEndpoint_when_ok (path method : string) (operation : value) :
  truthy operation = true -> operation_ok operation = true ->
  exists e, makeEndpoint path method operation = Ok e.
Proof.
  intros Ht Hok. apply truthy_non_nullish in Ht.
  unfold operation_ok in Hok. apply andb_true_iff in Hok.
  destruct Hok as [Hps Hrs].
  destruct (extractParameters_when_ok _ Hps) as (items & _ & Hparams).
  destruct (extractResponses_when_ok _ Hrs) as (r & Hresps).
  unfold makeEndpoint.
  rewrite !(get_non_nullish operation) by exact Ht. cbn [bind].
  rewrite Hparams. cbn [bind].
  rewrite extractRequestBody_value. cbn [bind].
  rewrite Hresps. cbn [bind]. eexists. reflexivity.
Qed.

Lemma makeEndpoint_when_not_ok (path method : string) (operation : value) :
  truthy operation = true -> operation_ok operation = false ->
  exists e, makeEndpoint path method operation = Throw e.
Proof.
  intros Ht Hok. apply truthy_non_nullish in Ht.
  unfold makeEndpoint.
  rewrite !(get_non_nullish operation) by exact Ht. cbn [bind].
  unfold operation_ok in Hok.
  destruct (parameters_ok (or_else (field operation "parameters") (VArr [])))
    eqn:Hps.
  - destruct (extractParameters_when_ok _ Hps) as (items & _ & Hparams).
    rewrite Hparams. cbn [bind].
    rewrite extractRequestBody_value. cbn [bind].
    simpl in Hok.
    destruct (extractResponses_when_not_ok _ Hok) as [e ->].
    exists e. reflexivity.
  - destruct (extractParameters_when_not_ok _ Hps) as [e ->].
    exists e. reflexivity.
Qed.

Lemma methodStep_when_ok (path : string) (pathItem : value)
    (endpoints : list value) (method : string) :
  nullish pathItem = false ->
  negb (declares pathItem method) || operation_ok (field pathItem method) = true ->
  exists endpoints', methodStep path pathItem endpoints method = Ok endpoints'.
Proof.
  intros Hitem Hok. unfold methodStep, declares in *.
  rewrite (get_non_nullish pathItem method Hitem). cbn [bind].
  destruct (truthy (field pathItem method)) eqn:Ht.
  - simpl in Hok.
    destruct (makeEndpoint_when_ok path method _ Ht Hok) as [e ->].
    eexists. reflexivity.
  - eexists. reflexivity.
Qed.

Lemma methodStep_when_not_ok (path : string) (pathItem : value)
    (endpoints : list value) (method : string) :
  negb (declares pathItem method) || operation_ok (field pathItem method) = false ->
  exists e, methodStep path pathItem endpoints method = Throw e.
Proof.
  intros Hok. unfold methodStep, declares in *.
  destruct (nullish pathItem) eqn:Hitem.
  - rewrite (get_nullish pathItem method Hitem). eexists. reflexivity.
  - rewrite (get_non_nullish pathItem method Hitem). cbn [bind].
    destruct (truthy (field pathItem method)) eqn:Ht; [| discriminate Hok].
    simpl in Hok.
    destruct (makeEndpoint_when_not_ok path method _ Ht Hok) as [e ->].
    exists e. reflexivity.
Qed.

Lemma pathStep_when_ok (endpoints : list value) (entry : string * value) :
  path_item_ok (snd entry) = true ->
  exists endpoints', pathStep endpoints entry = Ok endpoints'.
Proof.
  destruct entry as [path pathItem]. unfold path_item_ok, pathStep. cbn [snd].
  intros Hok. apply andb_true_iff in Hok. destruct Hok as [Hitem Hall].
  apply negb_true_iff in Hitem. rewrite forallb_forall in Hall.
  apply foldM_all_Ok. intros acc m Hm.
  apply methodStep_when_ok; [exact Hitem | exact (Hall m Hm)].
Qed.

Lemma pathStep_when_not_ok (endpoints : list value) (entry : string * value) :
  path_item_ok (snd entry) = false ->
  exists e, pathStep endpoints entry = Throw e.
Proof.
  destruct entry as [path pathItem]. unfold path_item_ok, pathStep. cbn [snd].
  intros Hok. apply andb_false_iff in Hok.
  destruct Hok as [Hitem | Hall].
  - apply negb_false_iff in Hitem.
    apply (foldM_Throw_in (methodStep path pathItem) methods "get");
      [left; reflexivity |].
    intros acc. unfold methodStep.
    rewrite (get_nullish pathItem "get" Hitem). eexists. reflexivity.
  - destruct (forallb_false_exists _ _ Hall) as (m & Hm & Hbad).
    apply (foldM_Throw_in (methodStep path pathItem) methods m Hm).
    intros acc. apply methodStep_when_not_ok. exact Hbad.
Qed.

Lemma entries_non_nullish (v : value) :
  nullish v = false -> exists es, entries v = Ok es.
Proof. destruct v; try discriminate; intros _; eexists; reflexivity. Qed.

Lemma extractEndpoints_when_ok (api : value) :
  document_ok api = true -> exists eps, extractEndpoints api = Ok eps.
Proof.
  unfold document_ok. intros Hok. apply andb_true_iff in Hok.
  destruct Hok as [Hapi Hpaths]. apply negb_true_iff in Hapi.
  unfold extractEndpoints.
  rewrite (get_non_nullish api "paths" Hapi). cbn [bind].
  destruct (truthy (field api "paths")) eqn:Ht; simpl; [| eexists; reflexivity].
  simpl in Hpaths. unfold path_entries in Hpaths.
  destruct (entries_non_nullish _ (truthy_non_nullish _ Ht)) as [es Hes].
  rewrite Hes in *. cbn [bind].
  rewrite forallb_forall in Hpaths.
  apply foldM_all_Ok. intros acc entry Hentry.
  apply pathStep_when_ok. exact (Hpaths entry Hentry).
Qed.

Lemma extractEndpoints_when_not_ok (api : value) :
  document_ok api = false -> exists e, extractEndpoints api = Throw e.
Proof.
  unfold document_ok. intros Hok. unfold extractEndpoints.
  destruct (nullish api) eqn:Hapi.
  - rewrite (get_nullish api "paths" Hapi). eexists. reflexivity.
  - rewrite (get_non_nullish api "paths" Hapi). cbn [bind].
    simpl in Hok.
    destruct (truthy (field api "paths")) eqn:Ht; [| discriminate Hok].
    simpl in Hok |- *. unfold path_entries in Hok.
    destruct (entries_non_nullish _ (truthy_non_nullish _ Ht)) as [es Hes].
    rewrite Hes in *. cbn [bind].
    destruct (forallb_false_exists _ _ Hok) as (entry & Hentry & Hbad).
    apply (foldM_Throw_in pathStep es entry Hentry).
    intros acc. apply pathStep_when_not_ok. exact Hbad.
Qed.

(** X4.  [extractEndpoints] returns a catalog exactly for the documents
    accepted by [document_ok]: the document is an object, and either its
    [paths] is missing or falsy, or no path item is [null] and every
    declared operation has a parameter list (if any) that is an array
    without [null] elements and a [responses] value that is present and has
    no [null] entry.  On every other document it throws; in particular an
    operation without [responses] makes the extraction of the whole
    document fail. *)
Theorem extractEndpoints_succeeds_iff (api : value) :
  ((exists eps, extractEndpoints api = Ok eps) <-> document_ok api = true)
  /\ ((exists e, extractEndpoints api = Throw e) <-> document_ok api = false).
Proof.
  split; split.
  - intros [eps Heps]. destruct (document_ok api) eqn:Hok; [reflexivity |].
    destruct (extractEndpoints_when_not_ok _ Hok) as [e He].
    rewrite He in Heps. discriminate Heps.
  - apply extractEndpoints_when_ok.
  - intros [e He]. destruct (document_ok api) eqn:Hok; [| reflexivity].
    destruct (extractEndpoints_when_ok _ Hok) as [eps Heps].
    rewrite Heps in He. discriminate He.
  - apply extractEndpoints_when_not_ok.
Qed.

(** X4 on a document whose only operation declares no responses, and on
    one whose operations all do. *)
Lemma extractEndpoints_succeeds_iff_witness :
  (exists e, extractEndpoints no_responses_api = Throw e)
  /\ exists eps, extractEndpoints colliding_api = Ok eps.
Proof.
  split.
  - exact (proj2 (proj2 (extractEndpoints_succeeds_iff no_responses_api)) eq_refl).
  - exact (proj2 (proj1 (extractEndpoints_succeeds_iff colliding_api)) eq_refl).
Defined.

(** X5.  [parse] returns a catalog exactly when the file can be accessed,
    swagger-parser parses it, and the parsed document is accepted by
    [document_ok]; in every other case it throws the wrapped error. *)
Theorem parse_succeeds_iff (w : world) (filePath : string) :
  ((exists r, parse w filePath = Ok r)
   <-> fs_access w filePath = Ok tt
       /\ exists api, swagger_parse w filePath = Ok api
                      /\ document_ok api = true)
  /\ ((exists r, parse w filePath = Ok r)
      \/ exists cause, parse w filePath = Throw (ParseFailed cause)).
Proof.
  split; [split |].
  - intros [r Hr]. apply ParseFacts.parse_shape in Hr.
    destruct Hr as (api & eps & Haccess & Hapi & Heps & _).
    split; [exact Haccess |]. exists api. split; [exact Hapi |].
    destruct (document_ok api) eqn:Hok; [reflexivity |].
    destruct (extractEndpoints_when_not_ok _ Hok) as [e He].
    rewrite He in Heps. discriminate Heps.
  - intros (Haccess & api & Hapi & Hok).
    destruct (extractEndpoints_when_ok _ Hok) as [eps Heps].
    unfold parse. rewrite Haccess, Hapi. cbn [bind]. rewrite Heps. cbn [bind].
    assert (Hnn : nullish api = false).
    { unfold document_ok in Hok. apply andb_true_iff in Hok.
      apply negb_true_iff. exact (proj1 Hok). }
    rewrite !(get_non_nullish api) by exact Hnn.
    eexists. reflexivity.
  - unfold parse, rethrow.
    match goal with
    | |- context [match ?c with _ => _ end] => destruct c as [r | e]
    end.
    + left. exists r. reflexivity.
    + right. exists e. reflexivity.
Qed.

(** X5 on a document whose only operation declares no responses:
    swagger-parser accepts the file, [parse] throws. *)
Lemma parse_succeeds_iff_witness :
  ~ (exists r, parse (world_of no_responses_api) "openapi.json" = Ok r)
  /\ exists r, parse (world_of colliding_api) "openapi.json" = Ok r.
Proof.
  split.
  - intros H. apply (proj1 (proj1 (parse_succeeds_iff _ _))) in H.
    destruct H as (_ & api & Hapi & Hok).
    injection Hapi as <-. discriminate Hok.
  - apply (proj2 (proj1 (parse_succeeds_iff _ _))).
    split; [reflexivity |]. eexists. split; reflexivity.
Defined.

End ExtractionFacts.

(** ** Shape of the catalog *)

Module CatalogShape.
Import JS.
Import Parser.
Import Terms.
Import ParserFacts.
Import Examples.

Lemma path_entries_falsy (api : value) :
  truthy (field api "paths") = false -> path_entries api = [].
Proof.
  unfold path_entries.
  destruct (field api "paths") as [| | [] | n | s | l | fs];
    try discriminate; try reflexivity.
  simpl. intros H. apply negb_false_iff, String.eqb_eq in H.
  subst s. reflexivity.
Qed.

(** The catalog, related to the declared operations of the document it was
    extracted from. *)
Lemma catalog_of_declared (api : value) (eps : list value) :
  extractEndpoints api = Ok eps ->
  Forall2 (fun o e => truthy (snd o) = true
                      /\ makeEndpoint (fst (fst o)) (snd (fst o)) (snd o) = Ok e)
          (declared_operations (path_entries api)) eps.
Proof.
  intros H. apply extractEndpoints_declared in H.
  destruct H as [[Hfalsy ->] | [_ (es & Hes & Hall)]].
  - rewrite (path_entries_falsy _ Hfalsy). constructor.
  - unfold path_entries. rewrite Hes. exact Hall.
Qed.

Lemma toUpperCase_methods_injective (m1 m2 : string) :
  In m1 methods -> In m2 methods ->
  toUpperCase m1 = toUpperCase m2 -> m1 = m2.
Proof.
  intros H1 H2 Heq.
  refine (proj1 (CatalogFacts.synthesized_prefix_injective m1 m2 "" "" H1 H2 _)).
  rewrite Heq. reflexivity.
Qed.

Lemma declared_operations_in (es : list (string * value))
    (o : string * string * value) :
  In o (declared_operations es) ->
  In (fst (fst o)) (map fst es) /\ In (snd (fst o)) methods.
Proof.
  unfold declared_operations. intros Hin.
  apply in_flat_map in Hin. destruct Hin as ([p item] & Hentry & Hin).
  apply in_map_iff in Hin. destruct Hin as (m & <- & Hm).
  apply filter_In in Hm. simpl. split; [| exact (proj1 Hm)].
  apply in_map_iff. exists (p, item). split; [reflexivity | exact Hentry].
Qed.

Lemma methods_NoDup : NoDup methods.
Proof.
  unfold methods.
  repeat (constructor; [simpl; intuition discriminate |]). constructor.
Qed.

Lemma declared_keys_NoDup (es : list (string * value)) :
  NoDup (map fst es) -> NoDup (map operation_key (declared_operations es)).
Proof.
  induction es as [| [p item] es IH]; intros Hnd; [constructor |].
  rewrite declared_operations_cons, map_app.
  inversion Hnd as [| ? ? Hp Hnd']; subst.
  apply NoDup_app.
  - rewrite map_map. apply NoDup_map_NoDup_ForallPairs.
    + intros m1 m2 H1 H2 Heq. apply filter_In in H1, H2.
      unfold operation_key in Heq. cbn [fst snd] in Heq.
      injection Heq as Heq.
      exact (toUpperCase_methods_injective _ _ (proj1 H1) (proj1 H2) Heq).
    + apply NoDup_filter. exact methods_NoDup.
  - exact (IH Hnd').
  - intros k Hhere Hlater.
    apply in_map_iff in Hhere. destruct Hhere as (o1 & <- & Ho1).
    apply in_map_iff in Ho1. destruct Ho1 as (m & <- & _).
    apply in_map_iff in Hlater. destruct Hlater as (o2 & Heq & Ho2).
    apply declared_operations_in in Ho2.
    unfold operation_key in Heq. cbn [fst snd] in Heq.
    injection Heq as Hpath _. apply Hp. rewrite <- Hpath. exact (proj1 Ho2).
Qed.

Lemma filter_none {A} (f : A -> bool) (l : list A) :
  (forall x, In x l -> f x = false) -> filter f l = [].
Proof.
  induction l as [| x l IH]; intros H; [reflexivity |].
  simpl. rewrite (H x (or_introl eq_refl)).
  apply IH. intros y Hy. apply H. right. exact Hy.
Qed.

(** With distinct path keys, the declared operations of one path are those
    of one path item: at most one for each of the seven methods. *)
Lemma declared_at_path_count (es : list (string * value)) (p : string) :
  NoDup (map fst es) ->
  List.length (filter (fun o => fst (fst o) =? p) (declared_operations es)) <= 7.
Proof.
  induction es as [| [q item] es IH]; intros Hnd; [simpl; lia |].
  inversion Hnd as [| ? ? Hq Hnd']; subst.
  rewrite declared_operations_cons, filter_app, length_app.
  destruct (String.eqb_spec q p) as [-> | Hqp].
  - rewrite (filter_none _ (declared_operations es)).
    + pose proof (filter_length_le
                    (fun o : string * string * value => fst (fst o) =? p)
                    (map (fun m => (p, m, field item m))
                         (filter (declares item) methods))) as H1.
      rewrite length_map in H1.
      pose proof (filter_length_le (declares item) methods) as H2.
      change (List.length methods) with 7 in H2.
      cbn [List.length]. lia.
    + intros o Ho. apply declared_operations_in in Ho.
      destruct (String.eqb_spec (fst (fst o)) p) as [Heq | _]; [| reflexivity].
      exfalso. apply Hq. rewrite <- Heq. exact (proj1 Ho).
  - rewrite (filter_none _ (map _ _)).
    + specialize (IH Hnd'). cbn [List.length]. lia.
    + intros o Ho. apply in_map_iff in Ho. destruct Ho as (m & <- & _).
      cbn [fst]. apply String.eqb_neq. exact Hqp.
Qed.

Lemma catalog_keys (ops : list (string * string * value)) (eps : list value) :
  Forall2 (fun o e => truthy (snd o) = true
                      /\ makeEndpoint (fst (fst o)) (snd (fst o)) (snd o) = Ok e)
          ops eps ->
  map path_and_method eps = map operation_key ops
  /\ forall p,
       List.length (filter (has_path p) eps)
       = List.length (filter (fun o => fst (fst o) =? p) ops).
Proof.
  induction 1 as [| o e os eps' [_ He] _ [IHk IHp]]; [split; reflexivity |].
  pose proof (CatalogFacts.makeEndpoint_path_and_method _ _ _ _ He) as Hpm.
  split.
  - cbn [map]. rewrite IHk, Hpm. reflexivity.
  - intros p. cbn [filter].
    assert (Hp : has_path p e = (fst (fst o) =? p)).
    { unfold has_path. unfold path_and_method in Hpm.
      injection Hpm as -> _. reflexivity. }
    rewrite Hp. destruct (fst (fst o) =? p); cbn [List.length]; rewrite IHp;
      reflexivity.
Qed.

(** X6.  The endpoints of the catalog are, one for one and in the same
    order, the declared operations of the document, each with the path and
    the uppercased method of its operation.  When the path keys of the
    document are distinct (as the keys of an object are), no two endpoints
    have the same path and method, and no path has more than seven
    endpoints. *)
Theorem catalog_operations_distinct (api : value) (eps : list value) :
  extractEndpoints api = Ok eps ->
  map path_and_method eps
  = map operation_key (declared_operations (path_entries api))
  /\ (NoDup (map fst (path_entries api)) ->
      NoDup (map path_and_method eps)
      /\ forall p, List.length (filter (has_path p) eps) <= 7).
Proof.
  intros H. pose proof (catalog_of_declared _ _ H) as Hall.
  destruct (catalog_keys _ _ Hall) as [Hkeys Hcount].
  split; [exact Hkeys |].
  intros Hnd. split.
  - rewrite Hkeys. apply declared_keys_NoDup. exact Hnd.
  - intros p. rewrite Hcount. apply declared_at_path_count. exact Hnd.
Qed.

(** X6 on the document with the paths /b and /a. *)
Lemma catalog_operations_distinct_witness :
  exists eps,
    extractEndpoints two_paths_api = Ok eps
    /\ map path_and_method eps
       = [ (VStr "/b", VStr "GET"); (VStr "/a", VStr "GET");
           (VStr "/a", VStr "POST") ]
    /\ NoDup (map path_and_method eps)
    /\ List.length (filter (has_path "/a") eps) <= 7.
Proof.
  eexists. split; [reflexivity |].
  destruct (catalog_operations_distinct two_paths_api _ eq_refl)
    as (Hkeys & Hdistinct).
  split; [exact Hkeys |].
  assert (Hnd : NoDup (map fst (path_entries two_paths_api))).
  { simpl. constructor.
    - simpl. intros [H | []]. discriminate H.
    - constructor; [intros [] | constructor]. }
  destruct (Hdistinct Hnd) as (Hnodup & Hcount).
  split; [exact Hnodup | exact (Hcount "/a")].
Defined.

(** X7.  Every endpoint of the catalog is the record of one declared
    operation: it has the eleven Endpoint fields, the path and the
    uppercased method of the operation, the operation's own [operationId]
    when that is truthy and the synthesized one otherwise; summary and
    description default to the empty string, tags and security to the
    empty list, deprecated to false; [requestBody] is [null] when the
    operation has none; parameters and responses are what
    [extractParameters] and [extractResponses] return for the operation's
    own values (parameters of the path item are not taken over). *)
Theorem catalog_endpoint_records (api : value) (eps : list value) :
  extractEndpoints api = Ok eps ->
  Forall2
    (fun o e =>
       let path := fst (fst o) in
       let method := snd (fst o) in
       let operation := snd o in
       keys e = Ok endpoint_keys
       /\ field e "path" = VStr path
       /\ field e "method" = VStr (toUpperCase method)
       /\ field e "operationId"
          = (if truthy (field operation "operationId")
             then field operation "operationId"
             else VStr (synthesizedId method path))
       /\ field e "summary" = or_else (field operation "summary") (VStr "")
       /\ field e "description" = or_else (field operation "description") (VStr "")
       /\ field e "tags" = or_else (field operation "tags") (VArr [])
       /\ field e "security" = or_else (field operation "security") (VArr [])
       /\ field e "deprecated" = or_else (field operation "deprecated") (VBool false)
       /\ field e "requestBody"
          = (if truthy (field operation "requestBody")
             then request_body_record (field operation "requestBody")
             else VNull)
       /\ extractParameters (or_else (field operation "parameters") (VArr []))
          = Ok (field e "parameters")
       /\ extractResponses (field operation "responses")
          = Ok (field e "responses"))
    (declared_operations (path_entries api)) eps.
Proof.
  intros H. pose proof (catalog_of_declared _ _ H) as Hall. clear H.
  induction Hall as [| o e os eps' [_ He] _ IH]; [constructor |].
  constructor; [| exact IH].
  apply makeEndpoint_shape in He.
  destruct He as (ps & rb & rs & -> & Hps & Hrb & Hrs).
  rewrite ExtractionFacts.extractRequestBody_value in Hrb.
  injection Hrb as <-.
  cbv zeta. repeat split; try reflexivity; assumption.
Qed.

(** X7 on a document with one bare GET operation. *)
Lemma catalog_endpoint_records_witness :
  exists e,
    extractEndpoints
      (VObj [("paths", VObj [("/user-profile", VObj [("get", bare_operation)])])])
    = Ok [e]
    /\ field e "operationId" = VStr "GET__user_profile"
    /\ field e "requestBody" = VNull
    /\ field e "tags" = VArr [].
Proof.
  eexists. split; [reflexivity |].
  pose proof (catalog_endpoint_records
                (VObj [("paths",
                        VObj [("/user-profile", VObj [("get", bare_operation)])])])
                _ eq_refl) as Hall.
  inversion Hall as [| o e os eps' Hrecord _]; subst.
  destruct Hrecord as (_ & _ & _ & Hid & _ & _ & Htags & _ & _ & Hbody & _).
  split; [exact Hid |]. split; [exact Hbody | exact Htags].
Defined.

Lemma string_forall_append (p : ascii -> bool) (s t : string) :
  string_forall p (s ++ t) = string_forall p s && string_forall p t.
Proof.
  induction s as [| c s IH]; simpl; [reflexivity |].
  rewrite IH. apply andb_assoc.
Qed.

Lemma length_append (s t : string) :
  String.length (s ++ t) = String.length s + String.length t.
Proof. induction s as [| c s IH]; simpl; [reflexivity | rewrite IH; reflexivity]. Qed.

Lemma length_map_string (f : ascii -> ascii) (s : string) :
  String.length (map_string f s) = String.length s.
Proof. induction s as [| c s IH]; simpl; [reflexivity | rewrite IH; reflexivity]. Qed.

Lemma replace_non_alnum_cons (c : ascii) (s : string) :
  replace_non_alnum (String c s)
  = String (if is_alnum c then c else "_"%char) (replace_non_alnum s).
Proof. reflexivity. Qed.

Lemma replace_non_alnum_identifier (s : string) :
  string_forall identifier_char (replace_non_alnum s) = true.
Proof.
  induction s as [| c s IH]; [reflexivity |].
  rewrite replace_non_alnum_cons. cbn [string_forall].
  rewrite IH, andb_true_r.
  unfold identifier_char. destruct (is_alnum c) eqn:Hc.
  - rewrite Hc. reflexivity.
  - reflexivity.
Qed.

Lemma replace_non_alnum_fixes (s : string) :
  string_forall is_alnum s = true -> replace_non_alnum s = s.
Proof.
  induction s as [| c s IH]; [reflexivity |].
  cbn [string_forall]. intros H. apply andb_true_iff in H.
  destruct H as [Hc Hs].
  rewrite replace_non_alnum_cons, Hc, (IH Hs). reflexivity.
Qed.

Lemma replace_non_alnum_twice (s : string) :
  replace_non_alnum (replace_non_alnum s) = replace_non_alnum s.
Proof.
  induction s as [| c s IH]; [reflexivity |].
  rewrite !replace_non_alnum_cons, IH.
  destruct (is_alnum c) eqn:Hc; [rewrite Hc |]; reflexivity.
Qed.

(** X8.  A synthesized operation identifier is made of letters, digits
    and underscores only, and it is as long as the method, the path and
    one underscore together; replacing the non-alphanumeric characters of a
    path keeps its length, changes nothing in a path that has none, and
    changes nothing when done a second time. *)
Theorem synthesizedId_is_identifier (method path : string) :
  In method methods ->
  string_forall identifier_char (synthesizedId method path) = true
  /\ String.length (synthesizedId method path)
     = String.length method + 1 + String.length path
  /\ String.length (replace_non_alnum path) = String.length path
  /\ replace_non_alnum (replace_non_alnum path) = replace_non_alnum path
  /\ (string_forall is_alnum path = true -> replace_non_alnum path = path).
Proof.
  intros Hm. unfold synthesizedId. split; [| split; [| split; [| split]]].
  - rewrite !string_forall_append, replace_non_alnum_identifier, andb_true_r.
    unfold methods in Hm. simpl in Hm.
    repeat (destruct Hm as [<- | Hm]; [reflexivity |]). contradiction.
  - rewrite !length_append. unfold toUpperCase, replace_non_alnum.
    rewrite !length_map_string. simpl. lia.
  - apply length_map_string.
  - apply replace_non_alnum_twice.
  - apply replace_non_alnum_fixes.
Qed.

(** X8 on DELETE /pets/{id}. *)
Lemma synthesizedId_is_identifier_witness :
  synthesizedId "delete" "/pets/{id}" = "DELETE__pets__id_"
  /\ string_forall identifier_char (synthesizedId "delete" "/pets/{id}") = true
  /\ replace_non_alnum "pets" = "pets".
Proof.
  destruct (synthesizedId_is_identifier "delete" "/pets/{id}"
              (or_intror (or_intror (or_intror (or_introl eq_refl)))))
    as (Hchars & _).
  destruct (synthesizedId_is_identifier "get" "pets" (or_introl eq_refl))
    as (_ & _ & _ & _ & Hfix).
  split; [reflexivity |]. split; [exact Hchars | exact (Hfix eq_refl)].
Defined.

End CatalogShape.

(** ** CSV output, file writing and validation *)

Module OutputFacts.
Import JS.
Import Parser.
Import Terms.
Import ParserFacts.
Import ExtractionFacts.
Import Examples.
Local Open Scope js_scope.








Lemma saveToFile_cases (w : world) (data : value) (outputPath : string)
    (format : option string) (fs : files) :
  (exists content,
     saveToFile w data outputPath format fs
     = (Ok tt, (outputPath, content) :: fs))
  \/ (exists e, saveToFile w data outputPath format fs = (Throw (SaveFailed e), fs))
  \/ (exists e partial,
        saveToFile w data outputPath format fs
        = (Throw (SaveFailed e), (outputPath, partial) :: fs)).
Proof.
  unfold saveToFile, writeFile.
  destruct (fileContent w data _) as [[content |] | e].
  - destruct (fs_writeFile_check w outputPath) as [[] | e].
    + left. exists content. reflexivity.
    + destruct (fs_writeFile_partial w outputPath content) as [partial |].
      * right. right. exists e, partial. reflexivity.
      * right. left. exists e. reflexivity.
  - right. left. eexists. reflexivity.
  - right. left. exists e. reflexivity.
Qed.

(** X10.  [saveToFile] touches no file but [outputPath].  When the content
    for the format can be computed and the write is accepted, the file
    holds exactly that content.  When the content cannot be computed (an
    unsupported format, data that JSON prints as [undefined], a failing
    YAML or CSV conversion), [saveToFile] throws the wrapped error before
    any file is opened and the files are as they were.  When the write is
    rejected, it throws the wrapped rejection, and the file is untouched or
    holds what the rejected write left in it.  An omitted format is
    json. *)
Theorem saveToFile_touches_only_output (w : world) (data : value)
    (outputPath : string) (format : option string) (fs : files) :
  let fmt := match format with Some f => f | None => "json" end in
  (forall content,
     fileContent w data fmt = Ok (Some content) ->
     fs_writeFile_check w outputPath = Ok tt ->
     saveToFile w data outputPath format fs
     = (Ok tt, (outputPath, content) :: fs))
  /\ ((forall content, fileContent w data fmt <> Ok (Some content)) ->
      exists e, saveToFile w data outputPath format fs = (Throw (SaveFailed e), fs))
  /\ (forall content e,
        fileContent w data fmt = Ok (Some content) ->
        fs_writeFile_check w outputPath = Throw e ->
        saveToFile w data outputPath format fs
        = (Throw (SaveFailed e),
           match fs_writeFile_partial w outputPath content with
           | Some partial => (outputPath, partial) :: fs
           | None => fs
           end))
  /\ (snd (saveToFile w data outputPath format fs) = fs
      \/ exists text,
           snd (saveToFile w data outputPath format fs)
           = (outputPath, text) :: fs)
  /\ saveToFile w data outputPath None fs
     = saveToFile w data outputPath (Some "json") fs.
Proof.
  cbv zeta. split; [| split; [| split; [| split; [| reflexivity]]]].
  - intros content Hcontent Hwrite. unfold saveToFile, writeFile.
    rewrite Hcontent, Hwrite. reflexivity.
  - intros Hnone. unfold saveToFile, writeFile.
    destruct (fileContent w data _) as [[content |] | e].
    + exfalso. exact (Hnone content eq_refl).
    + eexists. reflexivity.
    + exists e. reflexivity.
  - intros content e Hcontent Hwrite. unfold saveToFile, writeFile.
    rewrite Hcontent, Hwrite. reflexivity.
  - destruct (saveToFile_cases w data outputPath format fs)
      as [[content ->] | [[e ->] | (e & partial & ->)]]; cbn [snd].
    + right. exists content. reflexivity.
    + left. reflexivity.
    + right. exists partial. reflexivity.
Qed.

(** X10 on a YAML file that is written, on data that JSON cannot print,
    and on a write rejected after the file was emptied. *)
Lemma saveToFile_touches_only_output_witness :
  saveToFile (world_of bare_operation) (VObj []) "out.yaml" (Some "YAML") []
  = (Ok tt, [("out.yaml", "{}")])
  /\ (exists e,
        saveToFile mute_world VUndefined "out.json" None [("old", "kept")]
        = (Throw (SaveFailed e), [("old", "kept")]))
  /\ saveToFile full_disk_world (VObj []) "out.json" (Some "json")
                [("old", "kept")]
     = (Throw (SaveFailed (Rejected "ENOSPC")),
        [("out.json", ""); ("old", "kept")]).
Proof.
  split; [| split].
  - exact (proj1 (saveToFile_touches_only_output (world_of bare_operation)
                    (VObj []) "out.yaml" (Some "YAML") [])
                 "{}" eq_refl eq_refl).
  - apply (proj1 (proj2 (saveToFile_touches_only_output mute_world VUndefined
                           "out.json" None [("old", "kept")]))).
    intros content H. discriminate H.
  - exact (proj1 (proj2 (proj2 (saveToFile_touches_only_output full_disk_world
                                  (VObj []) "out.json" (Some "json")
                                  [("old", "kept")])))
                 "{}" (Rejected "ENOSPC") eq_refl eq_refl).
Defined.

(** X11.  The result of [parse] has no [length], so its CSV form is the
    empty text: saving a parse result as csv writes an empty file. *)
Theorem parse_result_csv_is_empty (w : world) (filePath : string) (r : value) :
  parse w filePath = Ok r ->
  convertToCsv w r = Ok ""
  /\ (forall outputPath fs,
        fs_writeFile_check w outputPath = Ok tt ->
        saveToFile w r outputPath (Some "csv") fs
        = (Ok tt, (outputPath, "") :: fs)).
Proof.
  intros H. apply ParseFacts.parse_shape in H.
  destruct H as (api & eps & _ & _ & _ & ->).
  split; [reflexivity |].
  intros outputPath fs Hwrite.
  unfold saveToFile, fileContent, writeFile. cbn. rewrite Hwrite. reflexivity.
Qed.

(** X11 on a document with two endpoints. *)
Lemma parse_result_csv_is_empty_witness :
  exists r,
    parse (world_of colliding_api) "openapi.json" = Ok r
    /\ saveToFile (world_of colliding_api) r "endpoints.csv" (Some "csv") []
       = (Ok tt, [("endpoints.csv", "")]).
Proof.
  eexists. split; [reflexivity |].
  exact (proj2 (parse_result_csv_is_empty (world_of colliding_api)
                  "openapi.json" _ eq_refl)
               "endpoints.csv" [] eq_refl).
Defined.

(** X12.  A file that [parse] accepts is valid for [validate], and a file
    that [validate] rejects makes [parse] throw.  The converse does not
    hold: [validate] does not extract the endpoints, so a file that
    swagger-parser parses into a document outside [document_ok] is valid
    for [validate] although [parse] throws on it. *)
Theorem validate_weaker_than_parse (w : world) (filePath : string) :
  (forall r, parse w filePath = Ok r -> validate w filePath = Ok true)
  /\ (validate w filePath = Ok false ->
      exists cause, parse w filePath = Throw (ParseFailed cause))
  /\ (forall api,
        swagger_parse w filePath = Ok api ->
        document_ok api = false ->
        validate w filePath = Ok true
        /\ exists cause, parse w filePath = Throw (ParseFailed cause)).
Proof.
  split; [| split].
  - intros r H. apply ParseFacts.parse_shape in H.
    destruct H as (api & eps & _ & Hapi & _). unfold validate.
    rewrite Hapi. reflexivity.
  - unfold validate, parse, rethrow, bind.
    destruct (swagger_parse w filePath) as [api | e]; [discriminate |].
    intros _. destruct (fs_access w filePath) as [u | e'].
    + exists e. reflexivity.
    + exists e'. reflexivity.
  - intros api Hapi Hbad.
    destruct (extractEndpoints_when_not_ok api Hbad) as [e He].
    unfold validate, parse, rethrow, bind. rewrite Hapi, He.
    split; [reflexivity |].
    destruct (fs_access w filePath) as [u | e'].
    + exists e. reflexivity.
    + exists e'. reflexivity.
Qed.

(** X12 on a missing file and on a document without responses. *)
Lemma validate_weaker_than_parse_witness :
  parse empty_world "missing.json" = Throw (ParseFailed (Rejected "ENOENT"))
  /\ validate (world_of no_responses_api) "openapi.json" = Ok true
  /\ exists cause,
       parse (world_of no_responses_api) "openapi.json"
       = Throw (ParseFailed cause).
Proof.
  split.
  - destruct (proj1 (proj2 (validate_weaker_than_parse empty_world "missing.json"))
                eq_refl) as [cause H].
    rewrite H. f_equal. f_equal. vm_compute in H. injection H as <-. reflexivity.
  - exact (proj2 (proj2 (validate_weaker_than_parse (world_of no_responses_api)
                           "openapi.json")) no_responses_api eq_refl eq_refl).
Defined.

End OutputFacts.

(** ** More on the runs of the driver *)

Module DriverFacts.
Import JS.
Import Parser.
Import Terms.
Import ParserFacts.
Import Cli.
Import Examples.

(** X13.  [swagX parse <file> -o <output>] with no [--format] always fails
    once the document has parsed: the default format of the command,
    [table], is not a format of [saveToFile], so the run prints the failure
    and exits with status 1 without writing the output file. *)
Theorem parse_output_default_format_fails (w : world) (c : collaborators)
    (file output : string) (r : value) (s : state) :
  parse w file = Ok r ->
  output <> "" ->
  parse_action w c file {| parse_output := Some output; parse_format := None |} s
  = {| trace := trace s ++ [ ConsoleLog MsgParsing;
                             ConsoleError
                               (MsgParseFailed
                                  (SaveFailed (UnsupportedFormat "table")));
                             Exit 1 ];
       disk := disk s |}.
Proof.
  intros Hparse Hout.
  unfold parse_action, guarded, save, cbind, emit, lift.
  rewrite Hparse. cbn [parse_output parse_format given_nonempty with_default].
  apply String.eqb_neq in Hout. rewrite Hout. cbn [negb trace disk].
  assert (Hsave : saveToFile w r output (Some "table") (disk s)
                  = (Throw (SaveFailed (UnsupportedFormat "table")), disk s)).
  { unfold saveToFile.
    rewrite (SaveFacts.fileContent_unsupported w r "table"); [reflexivity |].
    simpl. intros [H | [H | [H | [H | []]]]]; discriminate H. }
  rewrite Hsave. cbn [trace disk]. rewrite <- app_assoc. reflexivity.
Qed.

(** X13 on a document that parses. *)
Lemma parse_output_default_format_fails_witness :
  parse_action (world_of colliding_api) quiet "openapi.json"
               {| parse_output := Some "catalog.json"; parse_format := None |}
               initial
  = {| trace := [ ConsoleLog MsgParsing;
                  ConsoleError
                    (MsgParseFailed (SaveFailed (UnsupportedFormat "table")));
                  Exit 1 ];
       disk := [] |}.
Proof.
  refine (parse_output_default_format_fails (world_of colliding_api) quiet
            "openapi.json" "catalog.json" _ initial eq_refl _).
  discriminate.
Defined.

(** X14.  Every run of the three commands either has no error line and no
    exit at all, or ends with exactly one error line followed by the exit
    with status 1: nothing is printed or called after a failure, and a run
    never exits with a failure status without saying why. *)
Theorem runs_end_well (w : world) (c : collaborators) (file : string) :
  (forall options, ends_well (trace (parse_action w c file options initial)) = true)
  /\ (forall options, ends_well (trace (test_action w c file options initial)) = true)
  /\ (forall options, ends_well (trace (scan_action w c file options initial)) = true).
Proof.
  split; [| split]; intros options.
  - unfold parse_action, guarded, save, call, cbind, emit, lift.
    destruct (parse w file) as [r | e]; cbn [trace disk initial app];
      [| reflexivity].
    destruct (given_nonempty (parse_output options)); cbn [trace disk app].
    + destruct (OutputFacts.saveToFile_cases w r
                  (with_default (parse_output options) "")
                  (Some (with_default (parse_format options) "table")) [])
        as [[content ->] | [[e ->] | (e & partial & ->)]]; reflexivity.
    + destruct (reporter_new c); cbn [trace disk app]; [| reflexivity].
      destruct (reporter_printEndpoints c r); reflexivity.
  - unfold test_action, guarded, call, cbind, emit, lift.
    destruct (parse w file) as [data | e]; cbn [trace disk initial app];
      [| reflexivity].
    destruct (tester_new c (test_config options)); cbn [trace disk app];
      [| reflexivity].
    destruct (tester_runTests c (test_config options) data) as [results | e];
      cbn [trace disk app]; [| reflexivity].
    destruct (reporter_new c); cbn [trace disk app]; [| reflexivity].
    destruct (given_nonempty (test_report options)); cbn [trace disk app].
    + destruct (reporter_saveReport c results _); reflexivity.
    + destruct (reporter_printTestResults c results); reflexivity.
  - unfold scan_action, guarded, call, cbind, emit, lift.
    destruct (parse w file) as [data | e] eqn:Hparse;
      cbn [trace disk initial app]; [| reflexivity].
    destruct (CliFacts.parsed_count _ _ _ Hparse) as (eps & -> & ->).
    cbn [trace disk app].
    destruct (given_nonempty (scan_baseUrl options)); cbn [trace disk app];
      [| reflexivity].
    destruct (tester_new c _); cbn [trace disk app]; [| reflexivity].
    destruct (tester_runTests c _ data) as [results | e];
      cbn [trace disk app]; [| reflexivity].
    destruct (reporter_new c); cbn [trace disk app]; [| reflexivity].
    destruct (reporter_saveReport c results _); reflexivity.
Qed.

(** X15.  The [parse] command never constructs a tester and never runs a
    test, and it leaves at most one file behind, the one named by
    [--output]. *)
Theorem parse_action_only_parses (w : world) (c : collaborators)
    (file : string) (options : parse_options) :
  configs_used (trace (parse_action w c file options initial)) = []
  /\ (disk (parse_action w c file options initial) = []
      \/ exists output content,
           parse_output options = Some output
           /\ disk (parse_action w c file options initial) = [(output, content)]).
Proof.
  unfold parse_action, guarded, save, call, cbind, emit, lift.
  destruct (parse w file) as [r | e]; cbn [trace disk initial app];
    [| split; [reflexivity | left; reflexivity]].
  destruct (parse_output options) as [output |] eqn:Hout; cbn [given_nonempty].
  - destruct (negb (output =? "")); cbn [trace disk app with_default].
    + destruct (OutputFacts.saveToFile_cases w r output
                  (Some (with_default (parse_format options) "table")) [])
        as [[content ->] | [[e ->] | (e & partial & ->)]]; cbn [trace disk app].
      * split; [reflexivity |]. right. exists output, content. split; reflexivity.
      * split; [reflexivity | left; reflexivity].
      * split; [reflexivity |]. right. exists output, partial. split; reflexivity.
    + destruct (reporter_new c); cbn [trace disk app];
        [| split; [reflexivity | left; reflexivity]].
      destruct (reporter_printEndpoints c r); cbn [trace disk app];
        split; try reflexivity; left; reflexivity.
  - destruct (reporter_new c); cbn [trace disk app];
      [| split; [reflexivity | left; reflexivity]].
    destruct (reporter_printEndpoints c r); cbn [trace disk app];
      split; try reflexivity; left; reflexivity.
Qed.

(** Finds the events of a concrete trace that a membership can be about. *)
Ltac pick_event H :=
  cbn in H;
  repeat (destruct H as [H | H]; [try discriminate H |]);
  try contradiction; try discriminate H.

(** X16.  Test results reach the reporter only from the tester: whatever a
    [test] or [scan] run saves or prints as results is what [runTests]
    returned, for the parsed document, on a tester that was constructed
    without error with the configuration of the command; a [scan] run does
    so only when a non-empty base URL was given.  In both commands tests are
    never run on a tester whose construction failed, nor before the
    document has parsed. *)
Theorem reports_come_from_the_tester (w : world) (c : collaborators)
    (file : string) :
  (forall options results,
     In (Some results)
        (map reported (trace (test_action w c file options initial))) ->
     exists data,
       parse w file = Ok data
       /\ tester_new c (test_config options) = Ok tt
       /\ tester_runTests c (test_config options) data = Ok results)
  /\ (forall options results,
        In (Some results)
           (map reported (trace (scan_action w c file options initial))) ->
        exists data url,
          scan_baseUrl options = Some url /\ url <> ""
          /\ parse w file = Ok data
          /\ tester_new c (scan_config url) = Ok tt
          /\ tester_runTests c (scan_config url) data = Ok results)
  /\ (forall options cfg data,
        In (RunTests cfg data) (trace (test_action w c file options initial)) ->
        cfg = test_config options
        /\ parse w file = Ok data
        /\ tester_new c cfg = Ok tt)
  /\ (forall options cfg data,
        In (RunTests cfg data) (trace (scan_action w c file options initial)) ->
        exists url,
          scan_baseUrl options = Some url /\ url <> ""
          /\ cfg = scan_config url
          /\ parse w file = Ok data
          /\ tester_new c cfg = Ok tt).
Proof.
  split; [| split; [| split]].
  - intros options results.
    unfold test_action, guarded, call, cbind, emit, lift.
    destruct (parse w file) as [data | e] eqn:Hparse;
      cbn [trace disk initial app]; [| intros H; pick_event H].
    destruct (tester_new c (test_config options)) as [[] | e] eqn:Hnew;
      cbn [trace disk app]; [| intros H; pick_event H].
    destruct (tester_runTests c (test_config options) data) as [rs | e] eqn:Hrun;
      cbn [trace disk app]; [| intros H; pick_event H].
    destruct (reporter_new c); cbn [trace disk app]; [| intros H; pick_event H].
    destruct (given_nonempty (test_report options)); cbn [trace disk app].
    + destruct (reporter_saveReport c rs _); intros H; pick_event H;
        injection H as <-; exists data; auto.
    + destruct (reporter_printTestResults c rs); intros H; pick_event H;
        injection H as <-; exists data; auto.
  - intros options results.
    unfold scan_action, guarded, call, cbind, emit, lift.
    destruct (parse w file) as [data | e] eqn:Hparse;
      cbn [trace disk initial app]; [| intros H; pick_event H].
    destruct (CliFacts.parsed_count _ _ _ Hparse) as (eps & -> & ->).
    cbn [trace disk app].
    destruct (scan_baseUrl options) as [url |]; cbn [given_nonempty];
      [| intros H; pick_event H].
    destruct (String.eqb_spec url "") as [-> | Hurl]; cbn [negb trace disk app];
      [intros H; pick_event H |].
    cbn [with_default].
    destruct (tester_new c (scan_config url)) as [[] | e] eqn:Hnew;
      cbn [trace disk app]; [| intros H; pick_event H].
    destruct (tester_runTests c (scan_config url) data) as [rs | e] eqn:Hrun;
      cbn [trace disk app]; [| intros H; pick_event H].
    destruct (reporter_new c); cbn [trace disk app]; [| intros H; pick_event H].
    destruct (reporter_saveReport c rs _); intros H; pick_event H;
      injection H as <-; exists data, url; auto.
  - intros options cfg data0.
    unfold test_action, guarded, call, cbind, emit, lift.
    destruct (parse w file) as [data | e] eqn:Hparse;
      cbn [trace disk initial app]; [| intros H; pick_event H].
    destruct (tester_new c (test_config options)) as [[] | e] eqn:Hnew;
      cbn [trace disk app]; [| intros H; pick_event H].
    destruct (tester_runTests c (test_config options) data) as [rs | e];
      cbn [trace disk app];
      [| intros H; pick_event H; injection H as <- <-; auto].
    destruct (reporter_new c); cbn [trace disk app];
      [| intros H; pick_event H; injection H as <- <-; auto].
    destruct (given_nonempty (test_report options)); cbn [trace disk app].
    + destruct (reporter_saveReport c rs _); intros H; pick_event H;
        injection H as <- <-; auto.
    + destruct (reporter_printTestResults c rs); intros H; pick_event H;
        injection H as <- <-; auto.
  - intros options cfg data0.
    unfold scan_action, guarded, call, cbind, emit, lift.
    destruct (parse w file) as [data | e] eqn:Hparse;
      cbn [trace disk initial app]; [| intros H; pick_event H].
    destruct (CliFacts.parsed_count _ _ _ Hparse) as (eps & -> & ->).
    cbn [trace disk app].
    destruct (scan_baseUrl options) as [url |]; cbn [given_nonempty];
      [| intros H; pick_event H].
    destruct (String.eqb_spec url "") as [-> | Hurl]; cbn [negb trace disk app];
      [intros H; pick_event H |].
    cbn [with_default].
    destruct (tester_new c (scan_config url)) as [[] | e] eqn:Hnew;
      cbn [trace disk app]; [| intros H; pick_event H].
    destruct (tester_runTests c (scan_config url) data) as [rs | e];
      cbn [trace disk app];
      [| intros H; pick_event H; injection H as <- <-; exists url; auto].
    destruct (reporter_new c); cbn [trace disk app];
      [| intros H; pick_event H; injection H as <- <-; exists url; auto].
    destruct (reporter_saveReport c rs _); intros H; pick_event H;
      injection H as <- <-; exists url; auto.
Qed.

(** X16 on a [test] run that prints its results. *)
Lemma reports_come_from_the_tester_witness :
  exists data,
    parse (world_of colliding_api) "openapi.json" = Ok data
    /\ tester_runTests quiet (test_config no_test_options) data = Ok (VObj []).
Proof.
  destruct (proj1 (reports_come_from_the_tester (world_of colliding_api) quiet
                     "openapi.json") no_test_options (VObj []))
    as (data & Hparse & _ & Hrun).
  - cbn. do 4 right. left. reflexivity.
  - exists data. split; assumption.
Defined.

(** X17.  Where reports go.  A [test] run saves a report only to the
    non-empty path given with [--report] (without it the results are
    printed).  A [scan] run saves its report under the name given with
    [--report], by default [swagX-report.json], inside the directory given
    with [--output] when there is one, joined by a slash. *)
Theorem report_destination (w : world) (c : collaborators) (file : string) :
  (forall options results reportPath,
     In (SaveReport results reportPath)
        (trace (test_action w c file options initial)) ->
     test_report options = Some reportPath /\ reportPath <> "")
  /\ (forall options results reportPath,
        In (SaveReport results reportPath)
           (trace (scan_action w c file options initial)) ->
        let name := match scan_report options with
                    | Some given => given
                    | None => "swagX-report.json"
                    end in
        match scan_output options with
        | Some dir => if dir =? "" then reportPath = name
                      else reportPath = (dir ++ "/" ++ name)%string
        | None => reportPath = name
        end).
Proof.
  split.
  - intros options results reportPath.
    unfold test_action, guarded, call, cbind, emit, lift.
    destruct (parse w file) as [data | e];
      cbn [trace disk initial app]; [| intros H; pick_event H].
    destruct (tester_new c (test_config options)) as [[] | e];
      cbn [trace disk app]; [| intros H; pick_event H].
    destruct (tester_runTests c (test_config options) data) as [rs | e];
      cbn [trace disk app]; [| intros H; pick_event H].
    destruct (reporter_new c); cbn [trace disk app]; [| intros H; pick_event H].
    destruct (test_report options) as [report |]; cbn [given_nonempty].
    + destruct (String.eqb_spec report "") as [-> | Hreport];
        cbn [negb trace disk app with_default].
      * destruct (reporter_printTestResults c rs); intros H; pick_event H.
      * destruct (reporter_saveReport c rs report); intros H; pick_event H;
          injection H as _ <-; (split; [reflexivity | exact Hreport]).
    + destruct (reporter_printTestResults c rs); intros H; pick_event H.
  - intros options results reportPath.
    unfold scan_action, guarded, call, cbind, emit, lift.
    destruct (parse w file) as [data | e] eqn:Hparse;
      cbn [trace disk initial app]; [| intros H; pick_event H].
    destruct (CliFacts.parsed_count _ _ _ Hparse) as (eps & -> & ->).
    cbn [trace disk app].
    destruct (given_nonempty (scan_baseUrl options)); cbn [trace disk app];
      [| intros H; pick_event H].
    destruct (tester_new c _) as [[] | e];
      cbn [trace disk app]; [| intros H; pick_event H].
    destruct (tester_runTests c _ data) as [rs | e];
      cbn [trace disk app]; [| intros H; pick_event H].
    destruct (reporter_new c); cbn [trace disk app]; [| intros H; pick_event H].
    unfold with_default, given_nonempty.
    destruct (scan_output options) as [dir |].
    + destruct (dir =? ""); cbn [negb];
        destruct (reporter_saveReport c rs _); intros H; pick_event H;
        injection H as _ <-; reflexivity.
    + destruct (reporter_saveReport c rs _); intros H; pick_event H;
        injection H as _ <-; reflexivity.
Qed.

(** X17 on a scan into the directory [out]. *)
Lemma report_destination_witness :
  In (SaveReport (VObj []) "out/swagX-report.json")
     (trace (scan_action (world_of colliding_api) quiet "openapi.json"
                         {| scan_baseUrl := Some "http://localhost:3000";
                            scan_output := Some "out";
                            scan_report := None |}
                         initial))
  /\ forall results reportPath,
       In (SaveReport results reportPath)
          (trace (scan_action (world_of colliding_api) quiet "openapi.json"
                              {| scan_baseUrl := Some "http://localhost:3000";
                                 scan_output := Some "out";
                                 scan_report := None |}
                              initial)) ->
       reportPath = "out/swagX-report.json".
Proof.
  split.
  - cbn. do 5 right. left. reflexivity.
  - intros results reportPath Hin.
    exact (proj2 (report_destination (world_of colliding_api) quiet
                    "openapi.json")
                 {| scan_baseUrl := Some "http://localhost:3000";
                    scan_output := Some "out";
                    scan_report := None |} results reportPath Hin).
Defined.

End DriverFacts.

(** ** The timeout option *)

Module TimeoutFacts.
Import JS.
Import Cli.
Import Examples.







End TimeoutFacts.
